(** * Stock Market Chat: connection manager, request relay, error handling
      and API usage tracking

    A shallow embedding of the Python sources

    - [services/mcp_service.py]   (class [MCPService])
    - [config.py]                 (class [Config])
    - [utils/error_handler.py]    ([ErrorHandler], [validate_input])
    - [routes/chat_routes.py]     ([streaming_chat], [generate])
    - [utils/api_usage_tracker.py] ([APIUsageTracker])

    Effects are modelled by an explicit world that is threaded through a
    small state-and-exception monad.  What the outside world answers (does
    a [connect()] succeed, does a [close()] raise, which random bits does
    [uuid4] draw, what does an agent run emit) is supplied by an
    environment of oracles, so that every theorem quantifies over all the
    behaviours of the collaborators. *)

From Stdlib Require Import ZArith List String Ascii Lia Sorted Bool.
From stdpp Require Import base option list gmap strings.

Local Open Scope string_scope.
Local Open Scope list_scope.
Local Open Scope Z_scope.

(** ** Python values shared by all modules *)

Module Py.

(** An exception object.  Every error of the model is an instance of
    Python's [Exception] (this is what [except Exception] and
    [retry_if_exception_type(Exception)] select); [str(e)] is its message,
    and the traceback is kept apart from the message. *)
Inductive ExnClass := ExceptionC | ValidationErrorC | RetryErrorC.

Record exn := Exn {
  exn_class : ExnClass;
  exn_msg : string;
  exn_traceback : list string
}.

Definition str (e : exn) : string := exn_msg e.

Definition is_ValidationError (e : exn) : bool :=
  match exn_class e with ValidationErrorC => true | _ => false end.

(** [raise Exception(msg)] / [raise ValidationError(msg)] at a place of
    the modelled program: the traceback is the raising function. *)
Definition Exception (where_ msg : string) : exn := Exn ExceptionC msg [where_].
Definition ValidationError (where_ msg : string) : exn :=
  Exn ValidationErrorC msg [where_].

(** The [ZeroDivisionError] (an [Exception]) that [0 ** n] raises for a
    negative integer [n]. *)
Definition ZeroDivisionError (where_ : string) : exn :=
  Exception where_ "0.0 cannot be raised to a negative power".

(** Characters are Rocq's 8-bit [ascii], read as the code points 0..255. *)
Definition code (c : ascii) : N := N_of_ascii c.

(** [str.isspace] on one character of that range. *)
Definition isspace (c : ascii) : bool :=
  let n := code c in
  ((9 <=? n) && (n <=? 13) || (28 <=? n) && (n <=? 32)
   || (n =? 133) || (n =? 160))%N.

(** [s.lstrip()], [s.rstrip()] and [s.strip()] without arguments. *)
Fixpoint lstrip (s : string) : string :=
  match s with
  | EmptyString => EmptyString
  | String c s' => if isspace c then lstrip s' else s
  end.

Fixpoint rstrip (s : string) : string :=
  match s with
  | EmptyString => EmptyString
  | String c s' =>
      match rstrip s' with
      | EmptyString => if isspace c then EmptyString else String c EmptyString
      | r => String c r
      end
  end.

Definition strip (s : string) : string := rstrip (lstrip s).

(** [len(s)] *)
Definition len (s : string) : Z := Z.of_nat (String.length s).

(** [s.lower()]; on the code points 0..255 the letters with a lower-case
    partner are A-Z and the Latin-1 capitals 192..222 except 215. *)
Definition lower_char (c : ascii) : ascii :=
  let n := code c in
  if ((65 <=? n) && (n <=? 90)
      || (192 <=? n) && (n <=? 222) && negb (n =? 215))%N
  then ascii_of_N (n + 32) else c.

Fixpoint lower (s : string) : string :=
  match s with
  | EmptyString => EmptyString
  | String c s' => String (lower_char c) (lower s')
  end.

(** [pat in s] on strings. *)
Fixpoint contains (pat s : string) : bool :=
  String.prefix pat s ||
  match s with
  | EmptyString => false
  | String _ s' => contains pat s'
  end.

(** [s[:n]] *)
Definition take (n : nat) (s : string) : string := String.substring 0 n s.

(** Truthiness of an optional string ([None] and [''] are falsy). *)
Definition truthy (o : option string) : bool :=
  match o with
  | Some (String _ _) => true
  | _ => false
  end.

Definition nl : string := String (ascii_of_nat 10) EmptyString.

End Py.

Import Py.

(** ** The world and the effect monad *)

(** [config.py], class [Config]: the settings the connection manager reads.
    The values come from [int(os.getenv(...))], hence arbitrary integers. *)
Record Config := {
  MCP_CONNECTION_RETRIES : Z;
  MCP_RETRY_BACKOFF_BASE : Z;
  ALPHA_VANTAGE_API_KEY : option string
}.

Definition ALPHA_VANTAGE_MCP_URL_PREFIX : string :=
  "https://mcp.alphavantage.co/mcp?apikey=".

(** [Config.get_alpha_vantage_url] *)
Definition get_alpha_vantage_url (cfg : Config) : option string :=
  match ALPHA_VANTAGE_API_KEY cfg with
  | Some (String c k) => Some (ALPHA_VANTAGE_MCP_URL_PREFIX +:+ String c k)
  | _ => None
  end.

(** The defaults of [os.getenv('MCP_CONNECTION_RETRIES', '3')] and
    [os.getenv('MCP_RETRY_BACKOFF_BASE', '2')]. *)
Definition default_config (key : option string) : Config :=
  {| MCP_CONNECTION_RETRIES := 3; MCP_RETRY_BACKOFF_BASE := 2;
     ALPHA_VANTAGE_API_KEY := key |}.

(** An [MCPTools] object: one session to a tool provider.  [handle] is the
    identity of the object (its serial number of construction). *)
Record MCPTools := {
  transport : string;
  url : string;
  handle : nat
}.

(** [MCPTools(transport='streamable-http', url=mcp_url)], the [h]-th object. *)
Definition new_MCPTools (mcp_url : string) (h : nat) : MCPTools :=
  {| transport := "streamable-http"; url := mcp_url; handle := h |}.

(** One run event, [chunk.event] and [chunk.content]. *)
Record RunEvent := { event : string; content : string }.

(** What [agent.arun(user_input, stream=True)] yields when it is iterated:
    events, and possibly an exception after them. *)
Record Run := { run_events : list RunEvent; run_failure : option exn }.

Inductive Level := INFO | WARNING | ERROR.

(** One constructor per [logger] call of the sources, with the values the
    message interpolates. *)
Inductive LogMsg :=
| MConnected (n : nat)                 (* connect_all *)
| MReconnecting                        (* ensure_connected *)
| MCloseError (e : string)             (* disconnect_all, except branch *)
| MDisconnected                        (* disconnect_all *)
| MAlphaConnected                      (* _open_connections *)
| MNoApiKey                            (* _connect_alpha_vantage *)
| MAttemptConnected                    (* _attempt_connection *)
| MConnectFailed (retries : Z) (e : exn)      (* _connect_alpha_vantage *)
| MRetrying (wait : Z) (e : exn)       (* tenacity before_sleep_log *)
| MFinishedCall (attempt_number : Z)   (* tenacity after_log *)
| MProcessing (sid8 input50 : string)  (* streaming_chat *)
| MValidationError (e : string)        (* streaming_chat *)
| MErrorIn (context e : string)        (* ErrorHandler.log_error *)
| MError (e : string)                  (* ErrorHandler.log_error, no context *)
| MStreamingError (e : string)         (* ErrorHandler.handle_streaming_error *)
| MCreatingAgent (sid : string)        (* AgentService.create_agent *)
| MAgentCreated (n : nat).             (* AgentService.create_agent *)

(** Everything observable that the program does, in order. *)
Inductive Event :=
| EConnect (t : MCPTools) (r : option exn)   (* await t.connect(); None: it returned *)
| EClose (t : MCPTools) (r : option exn)     (* await t.close() *)
| ESleep (seconds : Z)                       (* tenacity sleeps between attempts *)
| ELog (lvl : Level) (m : LogMsg) (exc_info : option (list string))
| EUuid (bits : N)                           (* uuid.uuid4() *)
| EAgent (session_id : string) (tools : list MCPTools)   (* Agent(...) *)
| ERun (session_id input : string).          (* agent.arun(input, stream=True) *)

(** The collaborators, as oracles. *)
Record Env := {
  connect_outcome : MCPTools -> option exn;
  close_outcome : MCPTools -> option exn;
  urandom : nat -> N;
  agent_outcome : string -> list MCPTools -> option exn;
  arun : string -> string -> Run
}.

Record World := {
  pool : list MCPTools;      (* MCPService._mcp_tools_list *)
  next_handle : nat;         (* MCPTools objects constructed so far *)
  uuid_draws : nat;          (* uuid4() calls so far *)
  trace : list Event         (* oldest first *)
}.

Definition initial_world : World :=
  {| pool := []; next_handle := 0; uuid_draws := 0; trace := [] |}.

(** The result of a computation: a value, a raised exception, or (for the
    one loop that needs fuel) exhaustion of the fuel. *)
Inductive Result (A : Type) :=
| Ok (a : A)
| Raise (e : exn)
| OutOfFuel.
Arguments Ok {A} a.
Arguments Raise {A} e.
Arguments OutOfFuel {A}.

Definition M (A : Type) : Type := World -> World * Result A.

Definition ret {A} (a : A) : M A := fun w => (w, Ok a).

Definition bind {A B} (m : M A) (k : A -> M B) : M B :=
  fun w =>
    match m w with
    | (w1, Ok a) => k a w1
    | (w1, Raise e) => (w1, Raise e)
    | (w1, OutOfFuel) => (w1, OutOfFuel)
    end.

Definition raise {A} (e : exn) : M A := fun w => (w, Raise e).

(** [try: body  except Exception as e: handler(e)] *)
Definition try_except {A} (body : M A) (handler : exn -> M A) : M A :=
  fun w =>
    match body w with
    | (w1, Raise e) => handler e w1
    | r => r
    end.

Declare Scope py_scope.
Delimit Scope py_scope with py.
Notation "'let*' x ':=' m 'in' k" := (bind m (fun x => k))
  (at level 10, x name, m at level 100, k at level 200) : py_scope.
Notation "m ';;' k" := (bind m (fun _ => k))
  (at level 100, k at level 200, right associativity) : py_scope.
Local Open Scope py_scope.

Definition emit (ev : Event) : M unit :=
  fun w => ({| pool := pool w; next_handle := next_handle w;
               uuid_draws := uuid_draws w; trace := trace w ++ [ev] |}, Ok tt).

Definition log (lvl : Level) (m : LogMsg) : M unit := emit (ELog lvl m None).

Definition get_pool : M (list MCPTools) := fun w => (w, Ok (pool w)).

Definition set_pool (l : list MCPTools) : M unit :=
  fun w => ({| pool := l; next_handle := next_handle w;
               uuid_draws := uuid_draws w; trace := trace w |}, Ok tt).

(** Projections of a trace. *)
Definition attempts_of (tr : list Event) : list (MCPTools * option exn) :=
  omap (fun ev => match ev with EConnect t r => Some (t, r) | _ => None end) tr.

Definition sleeps_of (tr : list Event) : list Z :=
  omap (fun ev => match ev with ESleep s => Some s | _ => None end) tr.

Definition closes_of (tr : list Event) : list (MCPTools * option exn) :=
  omap (fun ev => match ev with EClose t r => Some (t, r) | _ => None end) tr.

Definition agents_of (tr : list Event) : list (string * list MCPTools) :=
  omap (fun ev => match ev with EAgent s l => Some (s, l) | _ => None end) tr.

Definition logs_of (tr : list Event) : list (Level * LogMsg) :=
  omap (fun ev => match ev with ELog l m _ => Some (l, m) | _ => None end) tr.

(** ** The retry policy of [tenacity] as the service configures it

    [tenacity] is a library the service calls; these definitions follow its
    [stop_after_attempt], [wait_exponential] and the loop of [Retrying]. *)

Module Tenacity.

(** [stop_after_attempt(max_attempt_number)]: stop once the number of the
    attempt just made has reached the maximum. *)
Definition stop_after_attempt (max_attempt_number attempt_number : Z) : bool :=
  attempt_number >=? max_attempt_number.

(** [wait_exponential(multiplier, max, exp_base, min)]:
    [max(max(0, min), min(multiplier * exp_base ** (attempt_number - 1), max))]. *)
Definition wait_exponential (multiplier min_ max_ exp_base attempt_number : Z) : Z :=
  let exp := exp_base ^ (attempt_number - 1) in
  let result := multiplier * exp in
  Z.max (Z.max 0 min_) (Z.min result max_).

(** The default of the parameter [exp_base], which the service leaves as
    it is. *)
Definition default_exp_base : Z := 2.

(** The loop of a function decorated with [@retry(stop, wait,
    retry=retry_if_exception_type(Exception), before_sleep=before_sleep_log
    (logger, WARNING), after=after_log(logger, INFO))].  The attempts are
    numbered from 1.  After a failed attempt: the [after] hook, then the
    stop test (which raises [RetryError]), then the wait is computed, the
    [before_sleep] hook runs and the loop sleeps.  [fuel] bounds the
    number of sleeps. *)
Fixpoint retrying {A} (fuel : nat) (stop : Z -> bool) (wait : Z -> Z)
    (fn : M A) (attempt_number : Z) : M A :=
  try_except fn (fun e =>
    log INFO (MFinishedCall attempt_number) ;;
    if stop attempt_number
    then raise (Exn RetryErrorC "RetryError" (exn_traceback e))
    else
      match fuel with
      | O => fun w => (w, OutOfFuel)
      | S fuel' =>
          let sleep := wait attempt_number in
          log WARNING (MRetrying sleep e) ;;
          emit (ESleep sleep) ;;
          retrying fuel' stop wait fn (attempt_number + 1)
      end).

End Tenacity.

(** ** [services/mcp_service.py]: class [MCPService] *)

Section MCPService.

Variable cfg : Config.
Variable env : Env.

(** [is_connected] *)
Definition is_connected (w : World) : bool :=
  match pool w with [] => false | _ => true end.

(** The body of [_attempt_connection]: construct an [MCPTools], await its
    [connect()], log, return it. *)
Definition _attempt_connection (mcp_url : string) : M MCPTools :=
  fun w =>
    let mcp_tools := new_MCPTools mcp_url (next_handle w) in
    let w1 := {| pool := pool w; next_handle := S (next_handle w);
                 uuid_draws := uuid_draws w; trace := trace w |} in
    match connect_outcome env mcp_tools with
    | Some e => (emit (EConnect mcp_tools (Some e)) ;; raise e) w1
    | None =>
        (emit (EConnect mcp_tools None) ;;
         log INFO MAttemptConnected ;;
         ret mcp_tools) w1
    end.

(** The upper bound handed to [wait_exponential]:
    [config.MCP_RETRY_BACKOFF_BASE ** (config.MCP_CONNECTION_RETRIES - 1)].
    For a retry count of at least 1 the exponent is not negative and [**]
    is the power of integers.  For a retry count below 1 Python leaves the
    integers.  With base 0 the power raises [ZeroDivisionError]
    ([backoff_cap_error] below).  With another base it is a float of
    absolute value at most 1, a cap under which every wait is the minimum
    1, as under the 0 that stands for it here; the loop then stops after
    its first attempt and never sleeps. *)
Definition backoff_cap : Z :=
  MCP_RETRY_BACKOFF_BASE cfg ^ (MCP_CONNECTION_RETRIES cfg - 1).

(** The exception of that power: base 0 with a negative exponent. *)
Definition backoff_cap_error : option exn :=
  if (MCP_RETRY_BACKOFF_BASE cfg =? 0) && (MCP_CONNECTION_RETRIES cfg - 1 <? 0)
  then Some (ZeroDivisionError "_connect_alpha_vantage")
  else None.

(** The wait after the attempt of the given number:
    [wait_exponential(multiplier=1, min=1, max=backoff_cap)]. *)
Definition retry_wait (attempt_number : Z) : Z :=
  Tenacity.wait_exponential 1 1 backoff_cap Tenacity.default_exp_base
    attempt_number.

(** [_connect_alpha_vantage].  The arguments of the decorator [@retry(...)]
    are evaluated where [_attempt_connection] is defined, after the test of
    the URL and before the [try]: an exception of the power is raised to
    the caller. *)
Definition _connect_alpha_vantage : M (option MCPTools) :=
  match get_alpha_vantage_url cfg with
  | None => log ERROR MNoApiKey ;; ret None
  | Some mcp_url =>
      match backoff_cap_error with
      | Some e => raise e
      | None =>
          try_except
            (let* t :=
               Tenacity.retrying (Z.to_nat (MCP_CONNECTION_RETRIES cfg))
                 (Tenacity.stop_after_attempt (MCP_CONNECTION_RETRIES cfg))
                 retry_wait (_attempt_connection mcp_url) 1 in
             ret (Some t))
            (fun e =>
               log ERROR (MConnectFailed (MCP_CONNECTION_RETRIES cfg) e) ;;
               ret None)
      end
  end.

(** [_open_connections] *)
Definition _open_connections : M (list MCPTools) :=
  let mcp_list := [] in
  let* alpha_vantage_tools := _connect_alpha_vantage in
  let* mcp_list :=
    match alpha_vantage_tools with
    | Some t => log INFO MAlphaConnected ;; ret (mcp_list ++ [t])
    | None => ret mcp_list
    end in
  match mcp_list with
  | [] => raise (Exception "_open_connections"
                   "Failed to connect to any MCP servers")
  | _ => ret mcp_list
  end.

(** [connect_all]; the lock is held for the whole body, and the model runs
    each operation as one step. *)
Definition connect_all : M unit :=
  let* l := _open_connections in
  set_pool l ;;
  log INFO (MConnected (length l)).

(** [ensure_connected] *)
Definition ensure_connected : M unit :=
  fun w =>
    if negb (is_connected w)
    then (log WARNING MReconnecting ;; connect_all) w
    else (w, Ok tt).

(** One turn of the loop of [disconnect_all]: close, and log a failure. *)
Definition close_one (mcp_tools : MCPTools) : M unit :=
  try_except
    (match close_outcome env mcp_tools with
     | Some e => emit (EClose mcp_tools (Some e)) ;; raise e
     | None => emit (EClose mcp_tools None)
     end)
    (fun e => log ERROR (MCloseError (str e))).

Fixpoint close_each (l : list MCPTools) : M unit :=
  match l with
  | [] => ret tt
  | mcp_tools :: rest => close_one mcp_tools ;; close_each rest
  end.

(** [disconnect_all] *)
Definition disconnect_all : M unit :=
  let* l := get_pool in
  close_each l ;;
  set_pool [] ;;
  log INFO MDisconnected.

End MCPService.

(** ** [utils/error_handler.py] *)

Module ErrorHandler.

Definition MSG_CONTEXT : string :=
  "The conversation history has exceeded the maximum token limit. " +:+
  "Please refresh the page to start a new conversation.".

Definition MSG_NETWORK : string :=
  "I'm experiencing connectivity issues with the data provider. " +:+
  "This might be due to rate limits (free tier allows 5 calls/minute, 25/day). " +:+
  "Please wait a moment and try again.".

Definition MSG_RATE_LIMIT : string :=
  "API rate limit reached. Free Alpha Vantage tier allows 5 requests per minute " +:+
  "and 25 per day. Please wait a few minutes before trying again.".

Definition MSG_FORBIDDEN : string :=
  "Access denied by the API. Please verify your Alpha Vantage API key is valid.".

Definition MSG_UNAUTHORIZED : string :=
  "Authentication failed. Please check your API keys in the .env file.".

Definition MSG_TIMEOUT : string :=
  "Request timed out. The API might be experiencing high load. " +:+
  "Please try again in a moment.".

Definition MSG_DEFAULT (cause : string) : string :=
  "I'm sorry, but something went wrong: " +:+ cause +:+ nl +:+ nl +:+
  "Please try rephrasing your question or wait a moment before trying again.".

(** [ErrorHandler.get_user_friendly_message] *)
Definition get_user_friendly_message (error : exn) : string :=
  let error_str := lower (str error) in
  if contains "context_length_exceeded" error_str
     || contains "maximum context length" error_str
  then MSG_CONTEXT
  else if contains "network" error_str || contains "connection" error_str
  then MSG_NETWORK
  else if contains "rate limit" error_str
  then MSG_RATE_LIMIT
  else if contains "403" error_str || contains "forbidden" error_str
  then MSG_FORBIDDEN
  else if contains "401" error_str || contains "unauthorized" error_str
  then MSG_UNAUTHORIZED
  else if contains "timeout" error_str
  then MSG_TIMEOUT
  else MSG_DEFAULT (str error).

(** [ErrorHandler.log_error]: [logger.error(..., exc_info=True)], which
    writes the traceback of the exception to the server log. *)
Definition log_error (error : exn) (context : string) : M unit :=
  match context with
  | String _ _ =>
      emit (ELog ERROR (MErrorIn context (str error)) (Some (exn_traceback error)))
  | EmptyString =>
      emit (ELog ERROR (MError (str error)) (Some (exn_traceback error)))
  end.

Definition MSG_STREAM_CONTEXT : string :=
  nl +:+ nl +:+ "**Context limit reached**. " +:+
  "The conversation history has become too long. " +:+
  "Please start a new conversation or refresh the page to continue.".

(** [ErrorHandler.handle_streaming_error] *)
Definition handle_streaming_error (error : exn) : M string :=
  let error_str := str error in
  log ERROR (MStreamingError error_str) ;;
  if contains "context_length_exceeded" error_str
     || contains "maximum context length" error_str
  then ret MSG_STREAM_CONTEXT
  else ret (nl +:+ nl +:+ "**Error**: " +:+ error_str +:+ nl +:+ nl +:+
            "Please try again or rephrase your question.").

(** [validate_input]; [request.args.get('input')] is [None] when the
    parameter is missing. *)
Definition validate_input (user_input : option string) : bool * string :=
  match user_input with
  | None | Some EmptyString => (false, "No input provided")
  | Some s =>
      if len (strip s) =? 0 then (false, "Input cannot be empty")
      else if len s >? 10000
      then (false, "Input is too long (maximum 10,000 characters)")
      else (true, EmptyString)
  end.

End ErrorHandler.

(** ** [uuid.uuid4] and [str] of the result *)

Module Uuid.

Definition hex_digit (n : N) : ascii :=
  ascii_of_N (if (n <? 10)%N then 48 + n else 87 + n)%N.

(** ['%0<width>x' % n], for [n] below [16 ^ width]. *)
Fixpoint hex (width : nat) (n : N) : string :=
  match width with
  | O => EmptyString
  | S width' => hex width' (n / 16)%N +:+ String (hex_digit (n mod 16)%N) EmptyString
  end.

(** [UUID(bytes=os.urandom(16), version=4).int]: the variant and version
    bits are overwritten. *)
Definition uuid4_int (random : N) : N :=
  let i := (random mod 2 ^ 128)%N in
  let i := N.ldiff i (N.shiftl 49152 48) in       (* int &= ~(0xc000 << 48) *)
  let i := N.lor i (N.shiftl 32768 48) in         (* int |= 0x8000 << 48 *)
  let i := N.ldiff i (N.shiftl 61440 64) in       (* int &= ~(0xf000 << 64) *)
  N.lor i (N.shiftl 4 76).                        (* int |= 4 << 76 *)

(** [UUID.__str__] *)
Definition uuid_str (i : N) : string :=
  let h := hex 32 i in
  String.substring 0 8 h +:+ "-" +:+ String.substring 8 4 h +:+ "-" +:+
  String.substring 12 4 h +:+ "-" +:+ String.substring 16 4 h +:+ "-" +:+
  String.substring 20 12 h.

End Uuid.

(** ** [Agent Chat/app.py] *)

Module AgentChat.

(** [generate(chunks)]: [if chunk.event == 'RunContent': yield chunk.content] *)
Fixpoint generate (chunks : list RunEvent) : list string :=
  match chunks with
  | [] => []
  | chunk :: rest =>
      if String.eqb (event chunk) "RunContent"
      then content chunk :: generate rest
      else generate rest
  end.

End AgentChat.

(** ** [routes/chat_routes.py] and [services/agent_service.py] *)

Section Routes.

Variable cfg : Config.
Variable env : Env.

Record Request := {
  header_X_Session_ID : option string;   (* request.headers.get('X-Session-ID') *)
  arg_input : option string              (* request.args.get('input') *)
}.

Inductive Body :=
| Text (s : string)          (* a complete body *)
| Stream (output : Run).     (* Response(generate(), ...) over this run *)

Record Response := {
  status : Z;
  body : Body;
  response_X_Session_ID : option string
}.

Record Agent := { agent_session_id : string; agent_tools : list MCPTools }.

(** [str(uuid.uuid4())] *)
Definition uuid4 : M string :=
  fun w =>
    let bits := urandom env (uuid_draws w) in
    let w1 := {| pool := pool w; next_handle := next_handle w;
                 uuid_draws := S (uuid_draws w); trace := trace w |} in
    (emit (EUuid bits) ;; ret (Uuid.uuid_str (Uuid.uuid4_int bits))) w1.

(** [AgentService.create_agent]; the constructor [Agent(...)] belongs to
    the agent library and may raise. *)
Definition create_agent (session_id : string) (mcp_tools_list : list MCPTools)
  : M Agent :=
  log INFO (MCreatingAgent session_id) ;;
  match agent_outcome env session_id mcp_tools_list with
  | Some e => raise e
  | None =>
      emit (EAgent session_id mcp_tools_list) ;;
      log INFO (MAgentCreated (length mcp_tools_list)) ;;
      ret {| agent_session_id := session_id; agent_tools := mcp_tools_list |}
  end.

(** [agent.arun(user_input, stream=True)]: returns the generator. *)
Definition agent_arun (agent : Agent) (user_input : string) : M Run :=
  emit (ERun (agent_session_id agent) user_input) ;;
  ret (arun env (agent_session_id agent) user_input).

(** The loop of [generate]:
    [async for chunk in output: if chunk.event == 'RunContent': yield chunk.content] *)
Fixpoint relay (chunks : list RunEvent) : list string :=
  match chunks with
  | [] => []
  | chunk :: rest =>
      if String.eqb (event chunk) "RunContent"
      then content chunk :: relay rest
      else relay rest
  end.

(** [generate] of [streaming_chat]: the fragments it yields when the
    response is sent.  An exception of the run ends the loop and yields
    the message of [handle_streaming_error]. *)
Definition generate (output : Run) : M (list string) :=
  match run_failure output with
  | None => ret (relay (run_events output))
  | Some e =>
      let* error_msg := ErrorHandler.handle_streaming_error e in
      ret (relay (run_events output) ++ [error_msg])
  end.

(** The bytes the client receives for a list of fragments. *)
Definition body_text (fragments : list string) : string :=
  fold_right String.append EmptyString fragments.

(** [session_id = request.headers.get('X-Session-ID') or str(uuid.uuid4())] *)
Definition resolve_session_id (req : Request) : M string :=
  match header_X_Session_ID req with
  | Some (String c s) => ret (String c s)
  | _ => uuid4
  end.

(** The [try] block of [streaming_chat] after [session_id] is assigned. *)
Definition streaming_chat_try (session_id : string) (req : Request)
  : M Response :=
  let user_input := arg_input req in
  let (is_valid, validation_error) := ErrorHandler.validate_input user_input in
  if negb is_valid
  then raise (ValidationError "streaming_chat" validation_error)
  else
    let user_input := default EmptyString user_input in
    log INFO (MProcessing (take 8 session_id) (take 50 user_input)) ;;
    ensure_connected cfg env ;;
    let* tools := get_pool in
    let* agent := create_agent session_id tools in
    let* output := agent_arun agent user_input in
    ret {| status := 200; body := Stream output;
           response_X_Session_ID := Some session_id |}.

(** The two [except] clauses, [except ValidationError] first; both set the
    header under the test [if session_id:]. *)
Definition streaming_chat_except (session_id : option string) (e : exn)
  : M Response :=
  if is_ValidationError e
  then
    log WARNING (MValidationError (str e)) ;;
    ret {| status := 400; body := Text ("Invalid input: " +:+ str e);
           response_X_Session_ID :=
             if truthy session_id then session_id else None |}
  else
    ErrorHandler.log_error e "streaming_chat" ;;
    ret {| status := 500;
           body := Text (ErrorHandler.get_user_friendly_message e);
           response_X_Session_ID :=
             if truthy session_id then session_id else None |}.

(** [streaming_chat].  [session_id] is assigned by the first statement
    of the [try] block, which does not raise. *)
Definition streaming_chat (req : Request) : M Response :=
  let* sid := resolve_session_id req in
  try_except (streaming_chat_try sid req) (streaming_chat_except (Some sid)).

End Routes.

(** ** [utils/api_usage_tracker.py]: class [APIUsageTracker] *)

Module Usage.

(** The value stored under one date of [_usage_data]. *)
Record DayUsage := {
  count : Z;
  endpoints : gmap string Z;
  first_call : option string;
  last_call : option string
}.

(** The tracker: the dictionary [_usage_data], keyed by ISO date, and the
    content of the storage file as last written. *)
Record Tracker := {
  _usage_data : gmap string DayUsage;
  storage : option (gmap string DayUsage)
}.

(** What the clock and the file system answer during one call. *)
Record Clock := {
  today_key : string;       (* date.today().isoformat() *)
  now_first : string;       (* datetime.now().isoformat(), first reading *)
  now_last : string;        (* second reading *)
  write_ok : bool           (* does open(..., 'w') / json.dump succeed *)
}.

Inductive UsageLog :=
| LimitReached (count : Z)        (* logger.error, count >= 25 *)
| ApproachingLimit (count : Z)    (* logger.warning, count >= 20 *)
| UsageInfo (count : Z)           (* logger.info, count >= 15 *)
| SaveFailed.                     (* logger.error in _save_usage *)

(** [_save_usage]: a failure of the write is logged and swallowed. *)
Definition _save_usage (clk : Clock) (t : Tracker) : Tracker * list UsageLog :=
  if write_ok clk
  then ({| _usage_data := _usage_data t; storage := Some (_usage_data t) |}, [])
  else (t, [SaveFailed]).

(** [self._usage_data[today]["count"]], 0 standing for a missing key. *)
Definition count_of (today : string) (d : gmap string DayUsage) : Z :=
  match d !! today with Some u => count u | None => 0 end.

(** [self._usage_data[today]["endpoints"][endpoint]], 0 for a missing key. *)
Definition endpoint_count_of (today endpoint : string)
    (d : gmap string DayUsage) : Z :=
  match d !! today with
  | Some u => default 0 (endpoints u !! endpoint)
  | None => 0
  end.

(** [record_api_call] *)
Definition record_api_call (clk : Clock) (endpoint : string) (t : Tracker)
  : Tracker * list UsageLog :=
  let today := today_key clk in
  let d := _usage_data t in
  (* if today not in self._usage_data: ... *)
  let d :=
    match d !! today with
    | None =>
        <[today := {| count := 0; endpoints := ∅;
                      first_call := Some (now_first clk);
                      last_call := None |}]> d
    | Some _ => d
    end in
  (* self._usage_data[today]["count"] += 1; ...["last_call"] = now *)
  let d :=
    alter (fun u => {| count := count u + 1; endpoints := endpoints u;
                       first_call := first_call u;
                       last_call := Some (now_last clk) |}) today d in
  (* per-endpoint usage *)
  let d :=
    alter (fun u =>
      let e := endpoints u in
      let e := match e !! endpoint with
               | None => <[endpoint := 0]> e
               | Some _ => e
               end in
      let e := alter (fun n => n + 1) endpoint e in
      {| count := count u; endpoints := e;
         first_call := first_call u; last_call := last_call u |}) today d in
  let (t', saved) := _save_usage clk {| _usage_data := d; storage := storage t |} in
  let count := count_of today d in
  let warn :=
    if count >=? 25 then [LimitReached count]
    else if count >=? 20 then [ApproachingLimit count]
    else if count >=? 15 then [UsageInfo count]
    else [] in
  (t', saved ++ warn).

(** The dictionary [get_today_usage] returns.  [percentage] is the
    floating-point [(count / 25) * 100] and is left out of the record. *)
Record TodayUsage := {
  u_date : string;
  u_count : Z;
  u_limit : Z;
  u_remaining : Z;
  u_endpoints : gmap string Z;
  u_first_call : option string;
  u_last_call : option string
}.

(** [get_today_usage] *)
Definition get_today_usage (today : string) (t : Tracker) : TodayUsage :=
  match _usage_data t !! today with
  | None =>
      {| u_date := today; u_count := 0; u_limit := 25; u_remaining := 25;
         u_endpoints := ∅; u_first_call := None; u_last_call := None |}
  | Some u =>
      let count := count u in
      {| u_date := today; u_count := count; u_limit := 25;
         u_remaining := Z.max 0 (25 - count);
         u_endpoints := endpoints u;
         u_first_call := first_call u; u_last_call := last_call u |}
  end.

(** [can_make_request] *)
Definition can_make_request (today : string) (t : Tracker) : bool :=
  let usage := get_today_usage today t in
  u_remaining usage >? 0.


(** The value stored for today after [record_api_call]. *)
Definition bump (clk : Clock) (endpoint : string) (u : DayUsage) : DayUsage :=
  {| count := count u + 1;
     endpoints := <[endpoint := default 0 (endpoints u !! endpoint) + 1]> (endpoints u);
     first_call := first_call u;
     last_call := Some (now_last clk) |}.

(** The entry [record_api_call] creates for a date without one. *)
Definition fresh_day (clk : Clock) : DayUsage :=
  {| count := 0; endpoints := ∅; first_call := Some (now_first clk);
     last_call := None |}.

End Usage.

(** ** The retry schedule in the words of the specification

    "wait time between attempts grows exponentially with a configurable base
    and multiplier, capped at base^(N-1)": the wait after attempt [k] is
    [multiplier * base^(k-1)], cut off at [base^(N-1)], where [base] is the
    configured backoff base. *)
Definition spec_wait (cfg : Config) (multiplier : Z) (attempt_number : Z) : Z :=
  Z.min (multiplier * MCP_RETRY_BACKOFF_BASE cfg ^ (attempt_number - 1))
        (MCP_RETRY_BACKOFF_BASE cfg ^ (MCP_CONNECTION_RETRIES cfg - 1)).

(** The numbers [k, k+1, ..., k+n-1] of [n] successive attempts. *)
Definition attempt_numbers (k : Z) (n : nat) : list Z :=
  map (fun i => k + Z.of_nat i) (seq 0 n).

(** The part of the trace that a run added. *)
Definition extends (w w' : World) (tr : list Event) : Prop :=
  trace w' = trace w ++ tr.

(** The messages logged at level [ERROR] in a trace. *)
Definition errors_of (tr : list Event) : list LogMsg :=
  omap (fun ev => match ev with ELog ERROR m _ => Some m | _ => None end) tr.

(** The attempts [h, h+1, ..., h+a-1] on a URL with the answers of the
    environment. *)
Definition attempts_from (env : Env) (mcp_url : string) (h : nat) (a : nat)
  : list (MCPTools * option exn) :=
  map (fun i => (new_MCPTools mcp_url i, connect_outcome env (new_MCPTools mcp_url i)))
      (seq h a).

(** What a run of the connection code between [w] and [w'] did: it made
    [a] attempts on fresh objects, slept the policy's waits between them,
    and touched nothing else. *)
Record connect_summary (cfg : Config) (env : Env) (mcp_url : string) (k : Z)
    (w w' : World) (a : nat) (tr : list Event) : Prop := {
  cs_trace : extends w w' tr;
  cs_uuid : uuid_draws w' = uuid_draws w;
  cs_handle : next_handle w' = (next_handle w + a)%nat;
  cs_attempts : attempts_of tr = attempts_from env mcp_url (next_handle w) a;
  cs_bound : Z.of_nat a <= Z.max 1 (MCP_CONNECTION_RETRIES cfg - k + 1);
  cs_sleeps : sleeps_of tr = map (retry_wait cfg) (attempt_numbers k (a - 1));
  cs_closes : closes_of tr = [];
  cs_agents : agents_of tr = []
}.

(** The failed attempts among the first [a] from handle [h]. *)
Definition all_failed (env : Env) (mcp_url : string) (h a : nat) : Prop :=
  forall i, (h <= i < h + a)%nat ->
    connect_outcome env (new_MCPTools mcp_url i) <> None.

(** The URL of the one configured provider (empty when no key is set and
    no attempt is made). *)
Definition provider_url (cfg : Config) : string :=
  default EmptyString (get_alpha_vantage_url cfg).

(** What the result of the retry loop, started at attempt [k] in [w], says
    about its [a] attempts: it returns the first object whose [connect()]
    succeeds, and raises [RetryError] when the permitted attempts failed. *)
Definition retry_result (cfg : Config) (env : Env) (mcp_url : string) (k : Z)
    (w : World) (a : nat) (r : Result MCPTools) : Prop :=
  match r with
  | Ok t => (1 <= a)%nat
            /\ t = new_MCPTools mcp_url (next_handle w + a - 1)
            /\ connect_outcome env t = None
            /\ all_failed env mcp_url (next_handle w) (a - 1)
  | Raise e => exn_class e = RetryErrorC
               /\ Z.of_nat a = Z.max 1 (MCP_CONNECTION_RETRIES cfg - k + 1)
               /\ all_failed env mcp_url (next_handle w) a
  | OutOfFuel => False
  end.

(** The same for the result of [_connect_alpha_vantage]. *)
Definition provider_result (cfg : Config) (env : Env) (w : World) (a : nat)
    (r : option MCPTools) : Prop :=
  match r with
  | Some t => retry_result cfg env (provider_url cfg) 1 w a (Ok t)
  | None =>
      all_failed env (provider_url cfg) (next_handle w) a
      /\ (get_alpha_vantage_url cfg = None /\ a = 0%nat
          \/ get_alpha_vantage_url cfg <> None
             /\ Z.of_nat a = Z.max 1 (MCP_CONNECTION_RETRIES cfg))
  end.

(** The arguments of the decorator of [_attempt_connection] have values:
    no URL is configured (the decorator is not reached), or the power of
    the cap does not raise. *)
Definition decorator_defined (cfg : Config) : Prop :=
  get_alpha_vantage_url cfg = None \/ backoff_cap_error cfg = None.

(** The error [_open_connections] raises when no provider connected. *)
Definition NoProvidersAvailable : exn :=
  Exception "_open_connections" "Failed to connect to any MCP servers".

(** The same for the result of [connect_all], with the pool. *)
Definition connect_all_result (cfg : Config) (env : Env) (w w' : World)
    (a : nat) (r : Result unit) : Prop :=
  match r with
  | Ok _ => exists t, provider_result cfg env w a (Some t) /\ pool w' = [t]
  | Raise e =>
      e = NoProvidersAvailable
      /\ pool w' = pool w /\ provider_result cfg env w a None
  | OutOfFuel => False
  end.

(** The operations of the connection manager, and runs of sequences of
    them; a caller that gets an exception goes on with the next operation. *)
Inductive Op := OpConnectAll | OpEnsureConnected | OpDisconnectAll.

Definition run_op (cfg : Config) (env : Env) (op : Op) : M unit :=
  match op with
  | OpConnectAll => connect_all cfg env
  | OpEnsureConnected => ensure_connected cfg env
  | OpDisconnectAll => disconnect_all env
  end.

Fixpoint run_ops (cfg : Config) (env : Env) (ops : list Op) (w : World) : World :=
  match ops with
  | [] => w
  | op :: rest => run_ops cfg env rest (run_op cfg env op w).1
  end.

(** The pool invariant: every session of the pool was connected
    successfully, as the trace records it, and the trace records the
    answers of the environment. *)
Definition pool_connected (env : Env) (w : World) : Prop :=
  (forall t, In t (pool w) -> In (t, None) (attempts_of (trace w)))
  /\ (forall t r, In (t, r) (attempts_of (trace w)) -> r = connect_outcome env t).


(** Claim C1 in the words of the specification: at most [N] attempts,
    non-decreasing waits, and the waits are those of [spec_wait] for some
    multiplier. *)
Definition retry_policy_as_specified (cfg : Config) (env : Env) (w : World) : Prop :=
  exists multiplier tr,
    extends w (connect_all cfg env w).1 tr
    /\ Z.of_nat (length (attempts_of tr)) <= MCP_CONNECTION_RETRIES cfg
    /\ StronglySorted Z.le (sleeps_of tr)
    /\ sleeps_of tr =
         map (spec_wait cfg multiplier)
             (attempt_numbers 1 (length (attempts_of tr) - 1)).

(** The error message [disconnect_all] logs for a session, if its [close()]
    raises. *)
Definition close_error_of (env : Env) (t : MCPTools) : option LogMsg :=
  match close_outcome env t with
  | Some e => Some (MCloseError (str e))
  | None => None
  end.

(** ** Concrete environments and configurations for the examples *)

(** A [connect()] that is refused. *)
Definition refused : exn := Exception "MCPTools.connect" "connection refused".

(** A run without events. *)
Definition quiet_run : Run := {| run_events := []; run_failure := None |}.

(** Every [connect()] raises. *)
Definition env_refusing : Env :=
  {| connect_outcome := fun _ => Some refused;
     close_outcome := fun _ => None;
     urandom := fun _ => 0%N;
     agent_outcome := fun _ _ => None;
     arun := fun _ _ => quiet_run |}.

(** Three attempts, backoff base 3. *)
Definition config_base3 : Config :=
  {| MCP_CONNECTION_RETRIES := 3; MCP_RETRY_BACKOFF_BASE := 3;
     ALPHA_VANTAGE_API_KEY := Some "demo" |}.

(** Six attempts with the default base, and four attempts with base 1. *)
Definition config_six : Config :=
  {| MCP_CONNECTION_RETRIES := 6; MCP_RETRY_BACKOFF_BASE := 2;
     ALPHA_VANTAGE_API_KEY := Some "demo" |}.

Definition config_base1 : Config :=
  {| MCP_CONNECTION_RETRIES := 4; MCP_RETRY_BACKOFF_BASE := 1;
     ALPHA_VANTAGE_API_KEY := Some "demo" |}.

(** A provider that accepts every connection, and an agent whose run emits
    "Hi", a tool call and " there". *)
Definition hello_run : Run :=
  {| run_events := [ {| event := "RunContent"; content := "Hi" |};
                     {| event := "ToolCallStarted"; content := "GLOBAL_QUOTE" |};
                     {| event := "RunContent"; content := " there" |} ];
     run_failure := None |}.

Definition env_hello : Env :=
  {| connect_outcome := fun _ => None;
     close_outcome := fun _ => None;
     urandom := fun _ => 0%N;
     agent_outcome := fun _ _ => None;
     arun := fun _ _ => hello_run |}.

(** Only the object with handle [h] connects. *)
Definition env_success_at (h : nat) : Env :=
  {| connect_outcome := fun t => if Nat.eqb (handle t) h then None else Some refused;
     close_outcome := fun _ => None;
     urandom := fun _ => 0%N;
     agent_outcome := fun _ _ => None;
     arun := fun _ _ => quiet_run |}.

(** ** Vocabulary of the request handler's properties *)

(** A string of whitespace only (the empty string included). *)
Fixpoint whitespace_only (s : string) : bool :=
  match s with
  | EmptyString => true
  | String c s' => isspace c && whitespace_only s'
  end.

(** [c * n] *)
Fixpoint repeat_char (c : ascii) (n : nat) : string :=
  match n with
  | O => EmptyString
  | S n' => String c (repeat_char c n')
  end.

(** The runs started in a trace. *)
Definition runs_of (tr : list Event) : list (string * string) :=
  omap (fun ev => match ev with ERun s i => Some (s, i) | _ => None end) tr.

(** The conversation identity of a request: the header when it is a
    non-empty string, else the string of the UUID drawn next. *)
Definition resolved_session_id (env : Env) (req : Request) (w : World) : string :=
  match header_X_Session_ID req with
  | Some (String c s) => String c s
  | _ => Uuid.uuid_str (Uuid.uuid4_int (urandom env (uuid_draws w)))
  end.

(** The test of [generate] on one event. *)
Definition is_content (chunk : RunEvent) : bool :=
  String.eqb (event chunk) "RunContent".

(** * The rest of the application *)



(** The world with more events in its trace. *)
Definition add_events (w : World) (tr : list Event) : World :=
  {| pool := pool w; next_handle := next_handle w;
     uuid_draws := uuid_draws w; trace := trace w ++ tr |}.

(** The requests of a list served one after the other; the responses go to
    the clients. *)
Fixpoint serve (cfg : Config) (env : Env) (reqs : list Request) (w : World) : World :=
  match reqs with
  | [] => w
  | req :: rest => serve cfg env rest (streaming_chat cfg env req w).1
  end.

(** ** [app.py] of the Stock Market Chat and [Config.validate] *)

Module StockApp.

(** The settings of [Config] that [Config.validate], [create_app] and
    [startup] read, around the ones of the connection manager.  ([DEBUG],
    [HOST], [PORT], [AGENT_TEMPERATURE] and [LOG_LEVEL] are read by the web
    server, the model client and the logging set-up only.) *)
Record Settings := {
  mcp_config : Config;
  OPENAI_API_KEY : option string;
  AGENT_MODEL : string;
  AGENT_HISTORY_RUNS : Z
}.

Definition ERR_ALPHA_VANTAGE_KEY : string :=
  "ALPHA_VANTAGE_API_KEY not set. " +:+
  "Get a free API key at https://www.alphavantage.co/support/#api-key".

Definition ERR_OPENAI_KEY : string :=
  "OPENAI_API_KEY not set. " +:+
  "Get your API key at https://platform.openai.com/api-keys".

(** [Config.validate] *)
Definition validate (s : Settings) : bool * list string :=
  let errors := [] in
  let errors :=
    if negb (truthy (ALPHA_VANTAGE_API_KEY (mcp_config s)))
    then errors ++ [ERR_ALPHA_VANTAGE_KEY] else errors in
  let errors :=
    if negb (truthy (OPENAI_API_KEY s))
    then errors ++ [ERR_OPENAI_KEY] else errors in
  (Nat.eqb (length errors) 0, errors).

(** The records of the logger of [app.py]. *)
Inductive AppLog :=
| AConfigError (error : string)     (* create_app *)
| AStarting                         (* startup *)
| AUsingModel (model : string)
| AHistoryRuns (runs : Z)
| AStartupComplete
| AStartFailed (e : string)
| AShuttingDown                     (* shutdown *)
| AShutdownComplete.

(** The error [create_app] raises, a [ConfigurationError] (an [Exception]). *)
Definition ConfigurationError : exn :=
  Exception "create_app" "Invalid configuration. Check logs for details.".

(** [create_app] up to the construction of the application: it validates
    the configuration, logs each error and raises, or goes on to build the
    application and register its routes and hooks. *)
Definition create_app (s : Settings) : Result unit * list (Level * AppLog) :=
  let (is_valid, errors) := validate s in
  if negb is_valid
  then (Raise ConfigurationError, map (fun error => (ERROR, AConfigError error)) errors)
  else (Ok tt, []).

(** [startup], the [before_serving] hook: the world and result, and the
    records of the logger of [app.py]. *)
Definition startup (s : Settings) (env : Env) (w : World)
  : World * Result unit * list (Level * AppLog) :=
  let logs := [(INFO, AStarting); (INFO, AUsingModel (AGENT_MODEL s));
               (INFO, AHistoryRuns (AGENT_HISTORY_RUNS s))] in
  match connect_all (mcp_config s) env w with
  | (w1, Ok _) => (w1, Ok tt, logs ++ [(INFO, AStartupComplete)])
  | (w1, Raise e) => (w1, Raise e, logs ++ [(ERROR, AStartFailed (str e))])
  | (w1, OutOfFuel) => (w1, OutOfFuel, logs)
  end.

(** [shutdown], the [after_serving] hook. *)
Definition shutdown (env : Env) (w : World)
  : World * Result unit * list (Level * AppLog) :=
  match disconnect_all env w with
  | (w1, Ok _) => (w1, Ok tt, [(INFO, AShuttingDown); (INFO, AShutdownComplete)])
  | (w1, r) => (w1, r, [(INFO, AShuttingDown)])
  end.

End StockApp.

Module UsageMore.
Import Usage.

(** The state of the storage file that [_load_usage] finds. *)
Inductive StorageFile :=
| FileMissing                              (* storage_path.exists() is false *)
| FileUnreadable                           (* open or json.load raises *)
| FileData (d : gmap string DayUsage).     (* json.load returns d *)

(** [_load_usage]: the data, and whether the warning "Could not load usage
    data" is logged. *)
Definition _load_usage (f : StorageFile) : gmap string DayUsage * bool :=
  match f with
  | FileData d => (d, false)
  | FileUnreadable => (∅, true)
  | FileMissing => (∅, false)
  end.

(** [APIUsageTracker(storage_path)]: a tracker over a file. *)
Definition new_tracker (f : StorageFile) : Tracker :=
  {| _usage_data := (_load_usage f).1;
     storage := match f with FileData d => Some d | _ => None end |}.

(** Calls of [record_api_call] one after the other, each with its clock
    and its endpoint. *)
Fixpoint record_all (calls : list (Clock * string)) (t : Tracker) : Tracker :=
  match calls with
  | [] => t
  | (clk, endpoint) :: rest => record_all rest (record_api_call clk endpoint t).1
  end.

(** The sum of the per-endpoint counts of one day. *)
Definition endpoints_total (e : gmap string Z) : Z :=
  map_fold (fun _ n acc => n + acc) 0 e.

(** Every day's count is the sum of its per-endpoint counts. *)
Definition consistent (d : gmap string DayUsage) : Prop :=
  forall day u, d !! day = Some u -> count u = endpoints_total (endpoints u).

(** The calls of a list that fall on a day, and those of them to an
    endpoint. *)
Definition calls_on (today : string) (calls : list (Clock * string))
  : list (Clock * string) :=
  List.filter (fun c => String.eqb (today_key c.1) today) calls.

Definition calls_to (endpoint : string) (calls : list (Clock * string))
  : list (Clock * string) :=
  List.filter (fun c => String.eqb c.2 endpoint) calls.

(** The records [record_api_call] makes for a new count. *)
Definition threshold_logs (count : Z) : list UsageLog :=
  if count >=? 25 then [LimitReached count]
  else if count >=? 20 then [ApproachingLimit count]
  else if count >=? 15 then [UsageInfo count]
  else [].

End UsageMore.

(** ** [Agent Chat/app.py]: [streaming_chat] *)

Module AgentChatApp.
Section Handler.
Variable env : Env.
(** [agent.run(user_input, stream=True)] for the agent of a session: the
    generator, or the exception the call raises; the input is whatever
    [request.args.get('input')] gave, [None] included. *)
Variable agent_run : string -> option string -> Run + exn.

Definition SORRY (cause : string) : string :=
  "I'm sorry, but something went wrong. (" +:+ cause +:+ ")".

(** [streaming_chat]: no status is given to [Response], which leaves the
    default 200 in both branches. *)
Definition streaming_chat (req : Request) : M Response :=
  let* session_id := resolve_session_id env req in
  try_except
    ((* agent = Agent(..., session_id=session_id, db=_memory, ...) *)
     match agent_outcome env session_id [] with
     | Some e => raise e
     | None => emit (EAgent session_id [])
     end ;;
     let user_input := arg_input req in
     let* output := match agent_run session_id user_input with
                    | inl output => ret output
                    | inr e => raise e
                    end in
     ret {| status := 200; body := Stream output;
            response_X_Session_ID := Some session_id |})
    (fun e =>
       let output := SORRY (str e) in
       ret {| status := 200; body := Text output;
              response_X_Session_ID := Some session_id |}).

End Handler.
End AgentChatApp.

(** ** [Agent Chat with MCP/app.py]: the connection hooks *)

Module AgentChatMCP.
Section Hooks.
Variable env : Env.

Definition MCP_URL : string := "https://docs.agno.com/mcp".

(** [open_mcp_connection] *)
Definition open_mcp_connection : M MCPTools :=
  fun w =>
    let _mcp_tools := new_MCPTools MCP_URL (next_handle w) in
    let w1 := {| pool := pool w; next_handle := S (next_handle w);
                 uuid_draws := uuid_draws w; trace := trace w |} in
    match connect_outcome env _mcp_tools with
    | Some e => (emit (EConnect _mcp_tools (Some e)) ;; raise e) w1
    | None => (emit (EConnect _mcp_tools None) ;; ret _mcp_tools) w1
    end.

(** [startup]: the new value of the global [_mcp_tools]. *)
Definition startup : M (option MCPTools) :=
  let* t := open_mcp_connection in ret (Some t).

(** [close_mcp_connection], for the object in the global. *)
Definition close_mcp_connection (_mcp_tools : MCPTools) : M unit :=
  match close_outcome env _mcp_tools with
  | Some e => emit (EClose _mcp_tools (Some e)) ;; raise e
  | None => emit (EClose _mcp_tools None)
  end.

(** [shutdown], given the global [_mcp_tools]. *)
Definition shutdown (_mcp_tools : option MCPTools) : M unit :=
  match _mcp_tools with
  | Some t => close_mcp_connection t
  | None => ret tt
  end.

End Hooks.
End AgentChatMCP.

(** ** [posixpath.join] *)

Module OsPath.

Fixpoint ends_with_sep (s : string) : bool :=
  match s with
  | EmptyString => false
  | String c EmptyString => Ascii.eqb c "/"
  | String _ r => ends_with_sep r
  end.

(** One step of the loop of [join]. *)
Definition join_step (path b : string) : string :=
  if String.prefix "/" b then b
  else if match path with EmptyString => true | _ => ends_with_sep path end
       then path +:+ b
       else path +:+ "/" +:+ b.

(** [os.path.join(a, *p)] *)
Definition join (a : string) (p : list string) : string :=
  fold_left join_step p a.

End OsPath.

(** ** [Agentic Duck/agents.py]: the retrieval tools *)

Module AgenticDuck.
Section Tools.
(** [os.listdir(directory)] and
    [MarkItDown(enable_plugins=False).convert(file_path).text_content]:
    the value, or the exception raised. *)
Variable listdir : string -> list string + exn.
Variable convert : string -> string + exn.

(** The loop over the files: the entries appended, and the lines printed
    for the files that could not be converted. *)
Fixpoint convert_files (directory : string) (files : list string)
  : list (string * string) * list string :=
  match files with
  | [] => ([], [])
  | filename :: rest =>
      let file_path := OsPath.join directory [filename] in
      let (entries, printed) := convert_files directory rest in
      match convert file_path with
      | inl text_content => ((filename, text_content) :: entries, printed)
      | inr e =>
          (entries,
           ("Unable to convert " +:+ file_path +:+ ": " +:+ str e) :: printed)
      end
  end.

(** [get_job_candidates]: the list that [json.dumps] encodes, as pairs of
    the values of 'Name' and 'Resume', and the lines printed after the
    heading; an exception of [os.listdir] is not caught. *)
Definition get_job_candidates : (list (string * string) + exn) * list string :=
  match listdir "candidates" with
  | inl files =>
      let (candidates, printed) := convert_files "candidates" files in
      (inl candidates, printed)
  | inr e => (inr e, [])
  end.

(** [get_job_descriptions]: the same over the directory 'jobs', with the
    values of 'Company' and 'Job Description'. *)
Definition get_job_descriptions : (list (string * string) + exn) * list string :=
  match listdir "jobs" with
  | inl files =>
      let (jobs, printed) := convert_files "jobs" files in
      (inl jobs, printed)
  | inr e => (inr e, [])
  end.

(** Whether a file of a directory can be converted. *)
Definition converts (directory filename : string) : bool :=
  match convert (OsPath.join directory [filename]) with
  | inl _ => true
  | inr _ => false
  end.

End Tools.
End AgenticDuck.

(** ** [Ask LISA/app.py]: [get_image] *)

Module AskLisa.
Section GetImage.
(** The directory of [app.py], [base64.b64encode] on the bytes of a file,
    and whether the file system lets a path be read and removed. *)
Variable root_dir : string.
Variable b64encode : string -> string.
Variable can_read : string -> bool.
Variable can_remove : string -> bool.

(** [get_image]: the files after the call (path to bytes) and the body of
    the response.  A [file_name] of [None] makes [os.path.join] raise,
    which the handler catches like every other exception. *)
Definition get_image (file_name : option string) (fs : gmap string string)
  : gmap string string * string :=
  match file_name with
  | None => (fs, EmptyString)
  | Some name =>
      let image_path := OsPath.join root_dir ["static"; name] in
      match fs !! image_path with
      | Some image_bytes =>
          if can_read image_path
          then
            let src := "data:image/png;base64," +:+ b64encode image_bytes in
            if can_remove image_path
            then (delete image_path fs, src)
            else (fs, EmptyString)
          else (fs, EmptyString)
      | None => (fs, EmptyString)
      end
  end.

End GetImage.
End AskLisa.

(** ** [text2sql] of [Ask LISA/agents.py] and [Agent Chat with Tools/agents.py]:
    the removal of markdown fences

    [re.sub(r'^```[\w]*\n|\n```$', '', response.content, flags=re.MULTILINE)] *)

Module Text2Sql.

Definition newline : ascii := ascii_of_nat 10.
Definition backtick : ascii := ascii_of_nat 96.

(** [\w] on the code points 0..255: the characters with [str.isalnum], and
    the underscore. *)
Definition is_word (c : ascii) : bool :=
  let n := code c in
  ((48 <=? n) && (n <=? 57) || (65 <=? n) && (n <=? 90) || (n =? 95)
   || (97 <=? n) && (n <=? 122)
   || (n =? 170) || (n =? 178) || (n =? 179) || (n =? 181) || (n =? 185)
   || (n =? 186) || (188 <=? n) && (n <=? 190)
   || (192 <=? n) && (n <=? 214) || (216 <=? n) && (n <=? 246)
   || (248 <=? n) && (n <=? 255))%N.

(** [[\w]*\n] at the head of [s]: the number of characters it takes.  The
    star takes every word character, none of which is a newline. *)
Fixpoint match_word_run_newline (s : string) : option nat :=
  match s with
  | EmptyString => None
  | String c r =>
      if Ascii.eqb c newline then Some 1%nat
      else if is_word c then option_map S (match_word_run_newline r)
      else None
  end.

(** The first alternative, [^```[\w]*\n], at a position: [^] holds at the
    start of the text and after every newline. *)
Definition match_open (at_line_start : bool) (s : string) : option nat :=
  if at_line_start
  then match s with
       | String c1 (String c2 (String c3 r)) =>
           if Ascii.eqb c1 backtick && Ascii.eqb c2 backtick && Ascii.eqb c3 backtick
           then option_map (fun n => (3 + n)%nat) (match_word_run_newline r)
           else None
       | _ => None
       end
  else None.

(** The second alternative, [\n```$]: [$] holds at the end of the text and
    before every newline. *)
Definition match_close (s : string) : option nat :=
  match s with
  | String c0 (String c1 (String c2 (String c3 r))) =>
      if Ascii.eqb c0 newline && Ascii.eqb c1 backtick && Ascii.eqb c2 backtick
         && Ascii.eqb c3 backtick
         && match r with
            | EmptyString => true
            | String c _ => Ascii.eqb c newline
            end
      then Some 4%nat else None
  | _ => None
  end.

(** The scan of [re.sub] with the empty replacement: at each position the
    alternatives are tried in order; a match is dropped and the scan goes
    on behind it, otherwise the character is kept.  [skip] counts the
    characters of a match still to drop, [at_line_start] says whether the
    character before the position is a newline (or there is none). *)
Fixpoint sub_fences (skip : nat) (at_line_start : bool) (s : string) : string :=
  match s with
  | EmptyString => EmptyString
  | String c r =>
      let next_line_start := Ascii.eqb c newline in
      match skip with
      | S k => sub_fences k next_line_start r
      | O =>
          match match_open at_line_start s with
          | Some n => sub_fences (n - 1) next_line_start r
          | None =>
              match match_close s with
              | Some n => sub_fences (n - 1) next_line_start r
              | None => String c (sub_fences 0 next_line_start r)
              end
          end
      end
  end.

(** [text2sql], from the content of the response of the model to the
    prompt: the value returned. *)
Definition text2sql (response_content : string) : string :=
  sub_fences 0 true response_content.

(** No backtick in a text. *)
Fixpoint no_backtick (s : string) : bool :=
  match s with
  | EmptyString => true
  | String c r => negb (Ascii.eqb c backtick) && no_backtick r
  end.

(** Word characters only. *)
Fixpoint all_word (s : string) : bool :=
  match s with
  | EmptyString => true
  | String c r => is_word c && all_word r
  end.

Definition FENCE : string := String backtick (String backtick (String backtick EmptyString)).
Definition NL : string := String newline EmptyString.

End Text2Sql.

(** ** Concrete values for the examples of the rest of the application *)

(** Both keys set, the defaults elsewhere. *)
Definition demo_settings : StockApp.Settings :=
  {| StockApp.mcp_config := default_config (Some "demo");
     StockApp.OPENAI_API_KEY := Some "sk-demo";
     StockApp.AGENT_MODEL := "gpt-4o-mini";
     StockApp.AGENT_HISTORY_RUNS := 3 |}.

(** Both keys set, backoff base 0 and retry count 0. *)
Definition zero_settings : StockApp.Settings :=
  {| StockApp.mcp_config :=
       {| MCP_CONNECTION_RETRIES := 0; MCP_RETRY_BACKOFF_BASE := 0;
          ALPHA_VANTAGE_API_KEY := Some "demo" |};
     StockApp.OPENAI_API_KEY := Some "sk-demo";
     StockApp.AGENT_MODEL := "gpt-4o-mini";
     StockApp.AGENT_HISTORY_RUNS := 3 |}.

(** A service with one session in its pool. *)
Definition connected_world : World :=
  {| pool := [new_MCPTools (ALPHA_VANTAGE_MCP_URL_PREFIX +:+ "demo") 0];
     next_handle := 1; uuid_draws := 0; trace := [] |}.

Definition hello_request : Request :=
  {| header_X_Session_ID := Some "abc-123"; arg_input := Some "hello" |}.

(** * Properties *)

(** ** The retry loop and the connection code *)

Ltac trace_eq := unfold extends; cbn; rewrite <- ?app_assoc; cbn; reflexivity.

Lemma attempt_numbers_S k n :
  attempt_numbers k (S n) = k :: attempt_numbers (k + 1) n.
Proof.
  unfold attempt_numbers. simpl. f_equal; [lia|].
  rewrite <- seq_shift, map_map. apply map_ext. intros i. lia.
Qed.

Section ConnectFacts.
Variable cfg : Config.
Variable env : Env.
Let N := MCP_CONNECTION_RETRIES cfg.

Lemma retrying_post mcp_url fuel : forall k w w' r,
  1 <= k -> N - k <= Z.of_nat fuel ->
  Tenacity.retrying fuel (Tenacity.stop_after_attempt N) (retry_wait cfg)
    (_attempt_connection env mcp_url) k w = (w', r) ->
  exists a tr, connect_summary cfg env mcp_url k w w' a tr
               /\ pool w' = pool w /\ retry_result cfg env mcp_url k w a r.
Proof.
  induction fuel as [|fuel IH]; intros k w w' r Hk Hfuel;
    cbn; unfold try_except, _attempt_connection;
    destruct (connect_outcome env _) as [e|] eqn:Hc; cbn;
    unfold Tenacity.stop_after_attempt;
    try destruct (Z.geb_spec k N) as [Hge|Hlt]; cbn;
    intros Hrun;
    try (injection Hrun as <- <-); try (exfalso; lia);
    try (exists 1%nat; eexists [_; _]; split; [|split; [reflexivity|]];
         [ split; try trace_eq; cbn; try lia; unfold attempts_from; cbn;
           rewrite ?Hc; reflexivity
         | cbn; unfold all_failed; repeat split; try lia;
           try (replace (next_handle w + 1 - 1)%nat with (next_handle w) by lia;
                first [reflexivity | assumption]);
           intros i Hi; replace i with (next_handle w) by lia; congruence ]).
  apply IH in Hrun; [|lia|lia].
  destruct Hrun as (a & tr & [Ht Hu Hh Ha Hb Hs Hcl Hag] & Hp & Hr).
  assert (Hpos : (1 <= a)%nat).
  { destruct r as [t|e'|]; cbn in Hr; [tauto| |tauto].
    destruct Hr as (_ & Hr & _). lia. }
  unfold extends, attempts_of, sleeps_of, closes_of, agents_of in *. cbn in *.
  exists (S a). eexists (_ :: _ :: _ :: _ :: tr).
  split; [split|split].
  - unfold extends. cbn. rewrite Ht. rewrite <- !app_assoc. reflexivity.
  - assumption.
  - cbn. lia.
  - unfold attempts_of, attempts_from in *. cbn. rewrite Hc, Ha. reflexivity.
  - fold N. lia.
  - replace (S a - 1)%nat with (S (a - 1)) by lia.
    rewrite attempt_numbers_S. unfold sleeps_of. cbn. rewrite Hs. reflexivity.
  - assumption.
  - assumption.
  - assumption.
  - unfold retry_result, all_failed in *. cbn in *.
    destruct r as [t|e'|]; [|  |assumption].
    + destruct Hr as (_ & -> & Ho & Hf).
      replace (next_handle w + S a - 1)%nat with (S (next_handle w) + a - 1)%nat
        by lia.
      split; [lia|]. split; [reflexivity|]. split; [exact Ho|].
      replace (S a - 1)%nat with (S (a - 1)) by lia.
      intros i Hi. destruct (decide (i = next_handle w)) as [->|Hne];
          [congruence | apply Hf; lia].
    + destruct Hr as (? & ? & Hf). repeat split; [assumption|lia|].
      intros i Hi. destruct (decide (i = next_handle w)) as [->|Hne];
          [congruence | apply Hf; lia].
Qed.

Lemma backoff_cap_error_iff :
  backoff_cap_error cfg = None
  <-> ~ (MCP_RETRY_BACKOFF_BASE cfg = 0 /\ MCP_CONNECTION_RETRIES cfg < 1).
Proof.
  unfold backoff_cap_error.
  destruct (Z.eqb_spec (MCP_RETRY_BACKOFF_BASE cfg) 0) as [Hb|Hb];
    destruct (Z.ltb_spec (MCP_CONNECTION_RETRIES cfg - 1) 0) as [Hn|Hn]; cbn;
    split; intros Hx; try reflexivity; try discriminate; try lia.
Qed.

Lemma backoff_cap_error_retries : 1 <= N -> backoff_cap_error cfg = None.
Proof. intros HN. apply backoff_cap_error_iff. fold N. lia. Qed.

Lemma retries_decorator_defined : 1 <= N -> decorator_defined cfg.
Proof. intros HN. right. apply backoff_cap_error_retries, HN. Qed.

Lemma decorator_cases :
  decorator_defined cfg
  \/ exists mcp_url e, get_alpha_vantage_url cfg = Some mcp_url
                       /\ backoff_cap_error cfg = Some e.
Proof.
  unfold decorator_defined.
  destruct (get_alpha_vantage_url cfg) as [mcp_url|]; [|left; left; reflexivity].
  destruct (backoff_cap_error cfg) as [e|]; [|left; right; reflexivity].
  right. exists mcp_url, e. split; reflexivity.
Qed.

(** When the power of the decorator raises, [connect_all] raises the same
    exception at once and changes nothing. *)
Lemma connect_all_undefined w mcp_url e :
  get_alpha_vantage_url cfg = Some mcp_url ->
  backoff_cap_error cfg = Some e ->
  connect_all cfg env w = (w, Raise e).
Proof.
  intros Hurl He. unfold connect_all, _open_connections, _connect_alpha_vantage.
  rewrite Hurl, He. reflexivity.
Qed.

Lemma connect_alpha_post w w' r :
  decorator_defined cfg ->
  _connect_alpha_vantage cfg env w = (w', r) ->
  exists a tr o,
    r = Ok o /\ connect_summary cfg env (provider_url cfg) 1 w w' a tr
    /\ pool w' = pool w /\ provider_result cfg env w a o.
Proof.
  intros Hdec.
  unfold _connect_alpha_vantage, provider_result, retry_result.
  assert (Hpu : provider_url cfg = default EmptyString (get_alpha_vantage_url cfg))
    by reflexivity.
  destruct (get_alpha_vantage_url cfg) as [mcp_url|] eqn:Hurl;
    cbn in Hpu; rewrite Hpu; clear Hpu; cbn.
  - destruct Hdec as [Hdec|Hdec]; [congruence|]. rewrite Hdec.
    unfold try_except, bind.
    destruct (Tenacity.retrying _ _ _ _ _ w) as [w1 r1] eqn:Hrun.
    apply retrying_post in Hrun; [|lia|fold N; lia].
    destruct Hrun as (a & tr & Hsum & Hp & Hr).
    destruct r1 as [t|e|]; cbn; intros H; injection H as <- <-.
    + exists a, tr, (Some t).
      split; [reflexivity|]. split; [exact Hsum|]. split; [exact Hp|exact Hr].
    + destruct Hr as (_ & Ha & Hf).
      destruct Hsum as [Htr Huu Hnh Hat Hbd Hsl
                          Hcl Hag].
      exists a, (tr ++ [ELog ERROR (MConnectFailed N e) None]), None.
      split; [reflexivity|]. split; [split|]; cbn; try assumption.
      * unfold extends in *. cbn. rewrite Htr. rewrite app_assoc. reflexivity.
      * unfold attempts_of in *. rewrite omap_app, Hat. cbn.
        apply app_nil_r.
      * unfold sleeps_of in *. rewrite omap_app, Hsl. cbn. apply app_nil_r.
      * unfold closes_of in *. rewrite omap_app, Hcl. reflexivity.
      * unfold agents_of in *. rewrite omap_app, Hag. reflexivity.
      * split; [assumption|]. split; [assumption|]. right. split; [congruence|].
        rewrite Ha. f_equal. lia.
    + destruct Hr.
  - intros H. injection H as <- <-.
    exists 0%nat, [ELog ERROR MNoApiKey None], None.
    split; [reflexivity|]. split; [split; try trace_eq; cbn; try lia; reflexivity|].
    split; [reflexivity|]. split; [|left; split; reflexivity].
    intros i Hi. lia.
Qed.

Lemma connect_all_post w w' r :
  decorator_defined cfg ->
  connect_all cfg env w = (w', r) ->
  exists a tr, connect_summary cfg env (provider_url cfg) 1 w w' a tr
               /\ connect_all_result cfg env w w' a r.
Proof.
  intros Hdec.
  unfold connect_all, _open_connections, bind at 1 2 3.
  destruct (_connect_alpha_vantage cfg env w) as [w1 r1] eqn:Hrun.
  apply connect_alpha_post in Hrun; [|exact Hdec].
  destruct Hrun as (a & tr & o & -> & Hsum & Hp & Hr).
  destruct o as [t|]; cbn; intros H; injection H as <- <-.
  - destruct Hsum as [Htr Huu Hnh Hat Hbd Hsl
                      Hcl Hag].
    exists a, (tr ++ [ELog INFO MAlphaConnected None; ELog INFO (MConnected 1) None]).
    split; [split|]; cbn; try assumption.
    + unfold extends in *. cbn. rewrite Htr, <- !app_assoc. reflexivity.
    + unfold attempts_of in *. rewrite omap_app, Hat. apply app_nil_r.
    + unfold sleeps_of in *. rewrite omap_app, Hsl. apply app_nil_r.
    + unfold closes_of in *. rewrite omap_app, Hcl. reflexivity.
    + unfold agents_of in *. rewrite omap_app, Hag. reflexivity.
    + exists t. split; [assumption|reflexivity].
  - exists a, tr. split; [assumption|].
    split; [reflexivity|]. split; [exact Hp|exact Hr].
Qed.

(** The waits never decrease with the number of the attempt. *)
Lemma retry_wait_mono i j : i <= j -> retry_wait cfg i <= retry_wait cfg j.
Proof.
  intros Hij. unfold retry_wait, Tenacity.wait_exponential, Tenacity.default_exp_base.
  assert (2 ^ (i - 1) <= 2 ^ (j - 1)) by (apply Z.pow_le_mono_r; lia).
  lia.
Qed.

Lemma retry_wait_bounds k :
  1 <= retry_wait cfg k <= Z.max 1 (backoff_cap cfg).
Proof. unfold retry_wait, Tenacity.wait_exponential. lia. Qed.

Lemma attempt_numbers_ge k n : Forall (fun i => k <= i) (attempt_numbers k n).
Proof.
  unfold attempt_numbers. apply List.Forall_forall. intros x Hx.
  apply in_map_iff in Hx as (i & <- & _). lia.
Qed.

Lemma waits_sorted n : forall k,
  StronglySorted Z.le (map (retry_wait cfg) (attempt_numbers k n)).
Proof.
  induction n as [|n IH]; intros k.
  - constructor.
  - rewrite attempt_numbers_S. cbn. constructor; [apply IH|].
    apply List.Forall_forall. intros x Hx.
    apply in_map_iff in Hx as (i & <- & Hi).
    apply retry_wait_mono.
    pose proof (attempt_numbers_ge (k + 1) n) as Hge.
    rewrite List.Forall_forall in Hge. specialize (Hge i Hi). lia.
Qed.
End ConnectFacts.

(** ** The retry schedule, failure of all providers, teardown, lazy
    reconnection and the pool invariant *)

Lemma length_attempts_from env mcp_url h a :
  length (attempts_from env mcp_url h a) = a.
Proof. unfold attempts_from. rewrite length_map. apply length_seq. Qed.

Lemma retry_wait_formula cfg k :
  retry_wait cfg k =
  Z.max 1 (Z.min (2 ^ (k - 1))
                 (MCP_RETRY_BACKOFF_BASE cfg ^ (MCP_CONNECTION_RETRIES cfg - 1))).
Proof.
  unfold retry_wait, Tenacity.wait_exponential, backoff_cap,
    Tenacity.default_exp_base.
  rewrite Z.mul_1_l. reflexivity.
Qed.

Lemma backoff_cap_pos cfg :
  1 <= MCP_CONNECTION_RETRIES cfg -> 1 <= MCP_RETRY_BACKOFF_BASE cfg ->
  1 <= backoff_cap cfg.
Proof.
  intros HN Hb. unfold backoff_cap.
  assert (0 < MCP_RETRY_BACKOFF_BASE cfg ^ (MCP_CONNECTION_RETRIES cfg - 1))
    by (apply Z.pow_pos_nonneg; lia).
  lia.
Qed.

(** The schedule the code follows.  For a retry count [N >= 1],
    [connect_all] makes at most [N] connection attempts on the provider and
    then gives up (the run never needs more fuel than it has).  It sleeps
    between successive attempts only, and the wait after the [k]-th failed
    attempt is [max(1, min(2^(k-1), base^(N-1)))], so the waits never
    decrease; each wait is at least 1 and at most [max(1, base^(N-1))]. *)
Theorem connect_all_retry_schedule cfg env w :
  1 <= MCP_CONNECTION_RETRIES cfg ->
  exists tr,
    extends w (connect_all cfg env w).1 tr
    /\ (connect_all cfg env w).2 <> OutOfFuel
    /\ Z.of_nat (length (attempts_of tr)) <= MCP_CONNECTION_RETRIES cfg
    /\ sleeps_of tr =
         map (retry_wait cfg) (attempt_numbers 1 (length (attempts_of tr) - 1))
    /\ (forall k, retry_wait cfg k =
          Z.max 1 (Z.min (2 ^ (k - 1))
            (MCP_RETRY_BACKOFF_BASE cfg ^ (MCP_CONNECTION_RETRIES cfg - 1))))
    /\ StronglySorted Z.le (sleeps_of tr)
    /\ Forall (fun s => 1 <= s <= Z.max 1 (backoff_cap cfg)) (sleeps_of tr)
    /\ (1 <= MCP_RETRY_BACKOFF_BASE cfg ->
        Forall (fun s => s <= backoff_cap cfg) (sleeps_of tr)).
Proof.
  intros HN.
  destruct (connect_all cfg env w) as [w' r] eqn:Hrun.
  apply connect_all_post in Hrun as (a & tr & Hsum & Hres);
    [|apply retries_decorator_defined, HN].
  destruct Hsum as [Htr Huu Hnh Hat Hbd Hsl Hcl Hag].
  assert (Hlen : length (attempts_of tr) = a)
    by (rewrite Hat; apply length_attempts_from).
  exists tr. cbn. rewrite Hlen.
  split; [exact Htr|]. split; [destruct r; cbn in Hres; [discriminate..|tauto]|].
  split; [lia|]. split; [exact Hsl|]. split; [apply retry_wait_formula|].
  rewrite Hsl. split; [apply waits_sorted|].
  assert (Hall : Forall (fun s => 1 <= s <= Z.max 1 (backoff_cap cfg))
                   (map (retry_wait cfg) (attempt_numbers 1 (a - 1)))).
  { apply List.Forall_forall. intros s Hs.
    apply in_map_iff in Hs as (k & <- & _). apply retry_wait_bounds. }
  split; [exact Hall|].
  intros Hb. pose proof (backoff_cap_pos cfg HN Hb).
  eapply List.Forall_impl; [|exact Hall]. cbn. intros s Hs. lia.
Qed.

(** With three attempts and backoff base 3 the service sleeps 1 and 2
    seconds, and no multiplier makes [multiplier * 3^(k-1)], cut off at
    [3^2], give these waits. *)
Lemma connect_all_waits_ignore_base :
  ~ retry_policy_as_specified config_base3 env_refusing initial_world.
Proof.
  intros (m & tr & Hext & _ & _ & Hs).
  unfold extends in Hext. vm_compute in Hext. subst tr.
  unfold spec_wait in Hs. cbn in Hs.
  injection Hs as H1 H2. lia.
Qed.

(** The schedule at three attempts and base 3, every attempt refused. *)
Lemma connect_all_retry_schedule_witness :
  1 <= MCP_CONNECTION_RETRIES config_base3
  /\ exists tr,
       extends initial_world
         (connect_all config_base3 env_refusing initial_world).1 tr
       /\ Z.of_nat (length (attempts_of tr)) <= MCP_CONNECTION_RETRIES config_base3
       /\ StronglySorted Z.le (sleeps_of tr)
       /\ sleeps_of tr = [1; 2].
Proof.
  assert (HN : 1 <= MCP_CONNECTION_RETRIES config_base3) by (cbn; lia).
  split; [exact HN|].
  destruct (connect_all_retry_schedule config_base3 env_refusing initial_world HN)
    as (tr & Hext & _ & Hle & _ & _ & Hsorted & _).
  exists tr. split; [exact Hext|]. split; [exact Hle|]. split; [exact Hsorted|].
  unfold extends in Hext. vm_compute in Hext. subst tr. reflexivity.
Defined.

(** The configured backoff base does not reach the growth of the waits:
    for every base of at least 2 the wait after the [k]-th attempt is
    [2^(k-1)], whatever the base. *)
Lemma retry_wait_ignores_base cfg k :
  2 <= MCP_RETRY_BACKOFF_BASE cfg ->
  1 <= k <= MCP_CONNECTION_RETRIES cfg ->
  retry_wait cfg k = 2 ^ (k - 1).
Proof.
  intros Hb Hk. rewrite retry_wait_formula.
  assert (H1 : 1 <= 2 ^ (k - 1)).
  { assert (0 < 2 ^ (k - 1)) by (apply Z.pow_pos_nonneg; lia). lia. }
  assert (H2 : 2 ^ (k - 1) <= 2 ^ (MCP_CONNECTION_RETRIES cfg - 1))
    by (apply Z.pow_le_mono_r; lia).
  assert (H3 : 2 ^ (MCP_CONNECTION_RETRIES cfg - 1)
               <= MCP_RETRY_BACKOFF_BASE cfg ^ (MCP_CONNECTION_RETRIES cfg - 1))
    by (apply Z.pow_le_mono_l; lia).
  lia.
Qed.

(** Claim C1, the defect.  The waits do not grow with the configured
    backoff base.  With three attempts and base 3, every attempt refused,
    [connect_all] makes its three attempts and sleeps 1 and 2 seconds, the
    waits of the default configuration with base 2, where growth with the
    configured base gives 1 and 3; no multiplier makes the specified
    schedule give these waits.  For every base of at least 2 the wait
    after the [k]-th attempt is [2^(k-1)]: the setting reaches
    [wait_exponential] as the cap only, never as [exp_base]. *)
Theorem connect_all_backoff_base_unused :
  let run cfg := (connect_all cfg env_refusing initial_world).1 in
  length (attempts_of (trace (run config_base3))) = 3%nat
  /\ sleeps_of (trace (run config_base3)) = [1; 2]
  /\ map (spec_wait config_base3 1) (attempt_numbers 1 2) = [1; 3]
  /\ sleeps_of (trace (run config_base3))
     = sleeps_of (trace (run (default_config (Some "demo"))))
  /\ ~ retry_policy_as_specified config_base3 env_refusing initial_world
  /\ (forall cfg k,
        2 <= MCP_RETRY_BACKOFF_BASE cfg ->
        1 <= k <= MCP_CONNECTION_RETRIES cfg ->
        retry_wait cfg k = 2 ^ (k - 1)).
Proof.
  cbn zeta. split; [vm_compute; reflexivity|]. split; [vm_compute; reflexivity|].
  split; [vm_compute; reflexivity|]. split; [vm_compute; reflexivity|].
  split; [exact connect_all_waits_ignore_base|exact retry_wait_ignores_base].
Qed.

(** The waits of the default configuration (three attempts), of six
    attempts, and of base 1, where the cap of 1 holds every wait down. *)
Example default_waits :
  sleeps_of (trace (connect_all (default_config (Some "demo")) env_refusing
                      initial_world).1) = [1; 2].
Proof. reflexivity. Qed.

Example six_attempts_waits :
  sleeps_of (trace (connect_all config_six env_refusing initial_world).1)
  = [1; 2; 4; 8; 16].
Proof. reflexivity. Qed.

Example base1_waits :
  sleeps_of (trace (connect_all config_base1 env_refusing initial_world).1)
  = [1; 1; 1].
Proof. reflexivity. Qed.

(** Claim C2.  If every connection attempt fails, [connect_all] raises the
    error "Failed to connect to any MCP servers" (the specification's
    [NoProvidersAvailable]) and leaves the pool as it was; a pool that was
    empty remains empty. *)
Theorem connect_all_no_providers cfg env w :
  1 <= MCP_CONNECTION_RETRIES cfg ->
  (forall t, connect_outcome env t <> None) ->
  (connect_all cfg env w).2 = Raise NoProvidersAvailable
  /\ pool (connect_all cfg env w).1 = pool w
  /\ (pool w = [] -> pool (connect_all cfg env w).1 = []).
Proof.
  intros HN Hfail.
  destruct (connect_all cfg env w) as [w' r] eqn:Hrun.
  apply connect_all_post in Hrun as (a & tr & _ & Hres);
    [|apply retries_decorator_defined, HN].
  destruct r as [u|e|]; cbn in *.
  - destruct Hres as (t & (_ & _ & Hok & _) & _). destruct (Hfail t Hok).
  - destruct Hres as (-> & Hp & _). rewrite Hp. auto.
  - destruct Hres.
Qed.

(** The default configuration against a provider that refuses every
    connection. *)
Lemma connect_all_no_providers_witness :
  1 <= MCP_CONNECTION_RETRIES (default_config (Some "demo"))
  /\ (forall t, connect_outcome env_refusing t <> None)
  /\ (connect_all (default_config (Some "demo")) env_refusing initial_world).2
     = Raise NoProvidersAvailable
  /\ pool (connect_all (default_config (Some "demo")) env_refusing initial_world).1
     = [].
Proof.
  assert (HN : 1 <= MCP_CONNECTION_RETRIES (default_config (Some "demo")))
    by (cbn; lia).
  assert (Hfail : forall t, connect_outcome env_refusing t <> None)
    by (intros t; cbn; discriminate).
  destruct (connect_all_no_providers (default_config (Some "demo")) env_refusing
              initial_world HN Hfail) as (Hr & _ & Hp).
  split; [exact HN|]. split; [exact Hfail|].
  split; [exact Hr|apply Hp; reflexivity].
Defined.


Lemma close_each_post env l : forall w,
  exists tr,
    close_each env l w =
      ({| pool := pool w; next_handle := next_handle w;
          uuid_draws := uuid_draws w; trace := trace w ++ tr |}, Ok tt)
    /\ closes_of tr = map (fun t => (t, close_outcome env t)) l
    /\ errors_of tr = omap (close_error_of env) l
    /\ attempts_of tr = [] /\ sleeps_of tr = [] /\ agents_of tr = [].
Proof.
  induction l as [|t l IH]; intros w.
  - exists []. cbn. rewrite app_nil_r. destruct w; cbn. repeat split.
  - cbn [close_each]. unfold bind at 1. unfold close_one, try_except, close_error_of.
    cbn [map omap list_omap].
    destruct (close_outcome env t) as [e|] eqn:Hc; cbn;
      match goal with |- context [close_each env l ?w1] =>
        destruct (IH w1) as (tr & -> & Hcl & Her & Hat & Hsl & Hag) end; cbn.
    + exists (EClose t (Some e) :: ELog ERROR (MCloseError (str e)) None :: tr).
      split; [f_equal; f_equal; rewrite <- !app_assoc; reflexivity|].
      unfold closes_of, errors_of, attempts_of, sleeps_of, agents_of in *.
      cbn. rewrite Hcl, Her, Hat, Hsl, Hag. unfold close_error_of.
      repeat split.
    + exists (EClose t None :: tr).
      split; [f_equal; f_equal; rewrite <- !app_assoc; reflexivity|].
      unfold closes_of, errors_of, attempts_of, sleeps_of, agents_of in *.
      cbn. rewrite Hcl, Her, Hat, Hsl, Hag. unfold close_error_of.
      repeat split.
Qed.

(** The run of [disconnect_all]: it returns, with the pool emptied and the
    closes and their failures in the trace. *)
Lemma disconnect_all_run env w :
  exists tr,
    disconnect_all env w =
      ({| pool := []; next_handle := next_handle w;
          uuid_draws := uuid_draws w; trace := trace w ++ tr |}, Ok tt)
    /\ closes_of tr = map (fun t => (t, close_outcome env t)) (pool w)
    /\ errors_of tr = omap (close_error_of env) (pool w)
    /\ attempts_of tr = [].
Proof.
  unfold disconnect_all, get_pool. unfold bind at 1 2.
  destruct (close_each_post env (pool w) w) as (tr & Heq & Hcl & Her & Hat & _).
  rewrite Heq. cbn.
  exists (tr ++ [ELog INFO MDisconnected None]).
  split; [rewrite app_assoc; reflexivity|].
  unfold closes_of, errors_of, attempts_of in *.
  rewrite !omap_app, Hcl, Her, Hat. cbn. rewrite !app_nil_r. repeat split.
Qed.

(** Claim C3.  [disconnect_all] always returns normally (no close failure
    reaches the caller) and leaves the pool empty, whichever closes raise;
    [close()] is called on every session of the pool, in order, whether or
    not an earlier close raised, and each failure is logged at level ERROR
    with its message. *)
Theorem disconnect_all_forced env w :
  exists tr,
    (disconnect_all env w).2 = Ok tt
    /\ pool (disconnect_all env w).1 = []
    /\ extends w (disconnect_all env w).1 tr
    /\ closes_of tr = map (fun t => (t, close_outcome env t)) (pool w)
    /\ errors_of tr = omap (close_error_of env) (pool w).
Proof.
  destruct (disconnect_all_run env w) as (tr & Heq & Hcl & Her & _).
  rewrite Heq. exists tr. cbn. unfold extends. auto.
Qed.

Section Reconnect.
Variable cfg : Config.
Variable env : Env.
Variable mcp_url : string.
Hypothesis Hurl : get_alpha_vantage_url cfg = Some mcp_url.
Variable n : nat.
Hypothesis Hn : Z.of_nat n = MCP_CONNECTION_RETRIES cfg.
Hypothesis Hpos : 1 <= MCP_CONNECTION_RETRIES cfg.

Lemma provider_url_configured : provider_url cfg = mcp_url.
Proof. unfold provider_url. rewrite Hurl. reflexivity. Qed.

(** All [n] permitted attempts fail: the call raises after exactly [n]
    attempts and leaves the pool as it was. *)
Lemma connect_all_exhausted w :
  all_failed env mcp_url (next_handle w) n ->
  (connect_all cfg env w).2 = Raise NoProvidersAvailable
  /\ pool (connect_all cfg env w).1 = pool w
  /\ next_handle (connect_all cfg env w).1 = (next_handle w + n)%nat
  /\ exists tr, extends w (connect_all cfg env w).1 tr
                /\ length (attempts_of tr) = n.
Proof.
  intros Hfail.
  destruct (connect_all cfg env w) as [w' r] eqn:Hrun.
  apply connect_all_post in Hrun as (a & tr & Hsum & Hres);
    [|apply retries_decorator_defined, Hpos].
  rewrite provider_url_configured in *.
  destruct Hsum as [Htr Huu Hnh Hat Hbd Hsl Hcl Hag].
  destruct r as [u|e|]; cbn in *.
  - exfalso. destruct Hres as (t & (Ha & -> & Hok & _) & _).
    rewrite provider_url_configured in Hok.
    apply (Hfail (next_handle w + a - 1)%nat); [lia|exact Hok].
  - destruct Hres as (-> & Hp & _ & [[Hnone _]|[_ Ha]]); [congruence|].
    assert (a = n) by lia. subst a.
    repeat split; [exact Hp|exact Hnh|].
    exists tr. split; [exact Htr|]. rewrite Hat. apply length_attempts_from.
  - destruct Hres.
Qed.

(** The first [n-1] attempts fail and the [n]-th succeeds: the call
    returns with that session in the pool, after exactly [n] attempts and
    the waits of the attempts 1 to [n-1]. *)
Lemma connect_all_last_attempt w :
  all_failed env mcp_url (next_handle w) (n - 1) ->
  connect_outcome env (new_MCPTools mcp_url (next_handle w + n - 1)) = None ->
  (connect_all cfg env w).2 = Ok tt
  /\ pool (connect_all cfg env w).1 = [new_MCPTools mcp_url (next_handle w + n - 1)]
  /\ exists tr, extends w (connect_all cfg env w).1 tr
                /\ length (attempts_of tr) = n
                /\ sleeps_of tr = map (retry_wait cfg) (attempt_numbers 1 (n - 1)).
Proof.
  intros Hfail Hok.
  destruct (connect_all cfg env w) as [w' r] eqn:Hrun.
  apply connect_all_post in Hrun as (a & tr & Hsum & Hres);
    [|apply retries_decorator_defined, Hpos].
  rewrite provider_url_configured in *.
  destruct Hsum as [Htr Huu Hnh Hat Hbd Hsl Hcl Hag].
  destruct r as [u|e|]; cbn in *.
  - destruct Hres as (t & (Ha & -> & Hok' & _) & Hp).
    rewrite provider_url_configured in *.
    assert (a = n).
    { destruct (decide (a = n)) as [|Hne]; [assumption|exfalso].
      apply (Hfail (next_handle w + a - 1)%nat); [lia|exact Hok']. }
    subst a. destruct u. repeat split; [exact Hp|].
    exists tr. repeat split; [exact Htr| |exact Hsl].
    rewrite Hat. apply length_attempts_from.
  - exfalso. destruct Hres as (_ & _ & Hf & [[Hnone _]|[_ Ha]]); [congruence|].
    rewrite provider_url_configured in Hf.
    apply (Hf (next_handle w + n - 1)%nat); [lia|exact Hok].
  - destruct Hres.
Qed.
End Reconnect.

Lemma ensure_connected_empty cfg env w :
  pool w = [] ->
  ensure_connected cfg env w = connect_all cfg env (log WARNING MReconnecting w).1.
Proof.
  intros Hp. unfold ensure_connected, is_connected. rewrite Hp. reflexivity.
Qed.

(** Claim C4.  With a non-empty pool [ensure_connected] does nothing at
    all: the world, and so the pool and the attempts, are as before.  With
    an empty pool it logs a warning and is [connect_all].  The attempts are
    counted anew by every call: when the [N] attempts of a [connect_all]
    have all failed and a later [ensure_connected] sees [N-1] more
    failures and then a success, it makes [N] attempts again, with the
    waits of a first call, and ends connected. *)
Theorem ensure_connected_lazy cfg env w :
  1 <= MCP_CONNECTION_RETRIES cfg ->
  (pool w <> [] -> ensure_connected cfg env w = (w, Ok tt))
  /\ (pool w = [] ->
      ensure_connected cfg env w
      = connect_all cfg env (log WARNING MReconnecting w).1)
  /\ (forall mcp_url n,
        pool w = [] ->
        get_alpha_vantage_url cfg = Some mcp_url ->
        Z.of_nat n = MCP_CONNECTION_RETRIES cfg ->
        all_failed env mcp_url (next_handle w) (n + (n - 1)) ->
        connect_outcome env (new_MCPTools mcp_url (next_handle w + n + n - 1))
          = None ->
        let w1 := (connect_all cfg env w).1 in
        let w2 := (ensure_connected cfg env w1).1 in
        (connect_all cfg env w).2 = Raise NoProvidersAvailable
        /\ pool w1 = []
        /\ (ensure_connected cfg env w1).2 = Ok tt
        /\ pool w2 = [new_MCPTools mcp_url (next_handle w + n + n - 1)]
        /\ exists tr1 tr2,
             extends w w1 tr1 /\ length (attempts_of tr1) = n
             /\ extends w1 w2 (ELog WARNING MReconnecting None :: tr2)
             /\ length (attempts_of tr2) = n
             /\ sleeps_of tr2 = map (retry_wait cfg) (attempt_numbers 1 (n - 1))).
Proof.
  intros HN. split; [|split].
  - intros Hp. unfold ensure_connected, is_connected.
    destruct (pool w); [congruence|reflexivity].
  - apply ensure_connected_empty.
  - intros mcp_url n Hp Hurl Hn Hfail Hok w1 w2.
    destruct (connect_all_exhausted cfg env mcp_url Hurl n Hn HN w)
      as (Hr1 & Hp1 & Hh1 & tr1 & Hext1 & Hlen1).
    { intros i Hi. apply Hfail. lia. }
    fold w1 in Hp1, Hh1, Hext1.
    assert (Hp1' : pool w1 = []) by congruence.
    subst w2. rewrite (ensure_connected_empty cfg env w1 Hp1').
    set (w1' := (log WARNING MReconnecting w1).1).
    destruct (connect_all_last_attempt cfg env mcp_url Hurl n Hn HN w1')
      as (Hr2 & Hp2 & tr2 & Hext2 & Hlen2 & Hsl2).
    { intros i Hi. apply Hfail. subst w1'. cbn in Hi. lia. }
    { subst w1'. cbn. rewrite Hh1.
      replace (next_handle w + n + n - 1)%nat
        with (next_handle w + n + n - 1)%nat in Hok by lia. exact Hok. }
    split; [exact Hr1|]. split; [exact Hp1'|]. split; [exact Hr2|].
    split; [rewrite Hp2; subst w1'; cbn; rewrite Hh1; reflexivity|].
    exists tr1, tr2. repeat split; try assumption.
    unfold extends in *. rewrite Hext2. subst w1'. cbn.
    rewrite <- app_assoc. reflexivity.
Qed.


(** Three attempts fail at start-up; the next request reconnects: two more
    failures, and the sixth object connects. *)
Lemma ensure_connected_lazy_witness :
  let cfg := default_config (Some "demo") in
  let env := env_success_at 5 in
  let w1 := (connect_all cfg env initial_world).1 in
  1 <= MCP_CONNECTION_RETRIES cfg
  /\ (connect_all cfg env initial_world).2 = Raise NoProvidersAvailable
  /\ (ensure_connected cfg env w1).2 = Ok tt
  /\ pool (ensure_connected cfg env w1).1
     = [new_MCPTools (ALPHA_VANTAGE_MCP_URL_PREFIX +:+ "demo") 5].
Proof.
  intros cfg env w1.
  assert (HN : 1 <= MCP_CONNECTION_RETRIES cfg) by (cbn; lia).
  split; [exact HN|].
  destruct (ensure_connected_lazy cfg env initial_world HN) as (_ & _ & H).
  destruct (H (ALPHA_VANTAGE_MCP_URL_PREFIX +:+ "demo") 3%nat)
    as (H1 & _ & H3 & H4 & _).
  - reflexivity.
  - reflexivity.
  - reflexivity.
  - intros i Hi. cbn in Hi.
    destruct i as [|[|[|[|[|i]]]]]; cbn; try discriminate. lia.
  - reflexivity.
  - split; [exact H1|]. split; [exact H3|exact H4].
Defined.

Section PoolInvariant.
Variable cfg : Config.
Variable env : Env.

Lemma in_attempts_from mcp_url h a t r :
  In (t, r) (attempts_from env mcp_url h a) -> r = connect_outcome env t.
Proof.
  unfold attempts_from. intros Hin.
  apply in_map_iff in Hin as (i & Heq & _). injection Heq as <- <-. reflexivity.
Qed.

Lemma attempts_of_app tr1 tr2 :
  attempts_of (tr1 ++ tr2) = attempts_of tr1 ++ attempts_of tr2.
Proof. unfold attempts_of. apply omap_app. Qed.

Lemma pool_connected_initial : pool_connected env initial_world.
Proof. split; cbn; intros; contradiction. Qed.

Lemma pool_connected_log w lvl m :
  pool_connected env w -> pool_connected env (log lvl m w).1.
Proof.
  intros [H1 H2]. split; cbn; intros t; rewrite attempts_of_app; cbn;
    rewrite app_nil_r; auto.
Qed.

Lemma connect_all_keeps w :
  pool_connected env w -> pool_connected env (connect_all cfg env w).1.
Proof.
  intros [H1 H2].
  destruct (decorator_cases cfg) as [Hdec|(mcp_url & e & Hurl & He)];
    [|rewrite (connect_all_undefined cfg env w mcp_url e Hurl He); split; assumption].
  destruct (connect_all cfg env w) as [w' r] eqn:Hrun.
  apply connect_all_post in Hrun as (a & tr & Hsum & Hres); [|exact Hdec].
  destruct Hsum as [Htr Huu Hnh Hat Hbd Hsl Hcl Hag].
  unfold extends in Htr. cbn.
  split.
  - intros t Hin. rewrite Htr, attempts_of_app. apply in_or_app.
    destruct r as [u|e|]; cbn in Hres.
    + destruct Hres as (t' & (Ha & -> & Hok & _) & Hp).
      rewrite Hp in Hin. destruct Hin as [<-|[]].
      right. rewrite Hat. unfold attempts_from. apply in_map_iff.
      exists (next_handle w + a - 1)%nat. split.
      * rewrite Hok. reflexivity.
      * apply in_seq. lia.
    + destruct Hres as (_ & Hp & _). rewrite Hp in Hin. left. auto.
    + destruct Hres.
  - intros t r0. rewrite Htr, attempts_of_app. intros Hin.
    apply in_app_or in Hin as [Hin|Hin]; [auto|].
    rewrite Hat in Hin. eapply in_attempts_from; eassumption.
Qed.

Lemma ensure_connected_keeps w :
  pool_connected env w -> pool_connected env (ensure_connected cfg env w).1.
Proof.
  intros Hinv. unfold ensure_connected.
  destruct (negb (is_connected w)); [|exact Hinv].
  change ((log WARNING MReconnecting;; connect_all cfg env)%py w)
    with (connect_all cfg env (log WARNING MReconnecting w).1).
  apply connect_all_keeps, pool_connected_log, Hinv.
Qed.

Lemma disconnect_all_keeps w :
  pool_connected env w -> pool_connected env (disconnect_all env w).1.
Proof.
  intros [H1 H2].
  destruct (disconnect_all_run env w) as (tr & Heq & _ & _ & Hat).
  rewrite Heq. split; cbn.
  - intros t [].
  - intros t r. rewrite attempts_of_app, Hat, app_nil_r. auto.
Qed.

Lemma run_op_keeps op w :
  pool_connected env w -> pool_connected env (run_op cfg env op w).1.
Proof.
  destruct op; cbn;
    [apply connect_all_keeps|apply ensure_connected_keeps|apply disconnect_all_keeps].
Qed.

Lemma run_ops_keeps ops : forall w,
  pool_connected env w -> pool_connected env (run_ops cfg env ops w).
Proof.
  induction ops as [|op ops IH]; intros w Hinv; cbn; [exact Hinv|].
  apply IH, run_op_keeps, Hinv.
Qed.
End PoolInvariant.

(** Claim C5.  After every sequence of [connect_all], [ensure_connected]
    and [disconnect_all] from the initial service, each session of the pool
    is one whose [connect()] returned normally, and an object whose
    [connect()] raised is not in the pool. *)
Theorem pool_holds_connected_sessions cfg env ops :
  let w := run_ops cfg env ops initial_world in
  (forall t, In t (pool w) ->
     In (t, None) (attempts_of (trace w)) /\ connect_outcome env t = None)
  /\ (forall t e, In (t, Some e) (attempts_of (trace w)) -> ~ In t (pool w)).
Proof.
  intros w.
  destruct (run_ops_keeps cfg env ops initial_world (pool_connected_initial env))
    as [H1 H2].
  fold w in H1, H2. split.
  - intros t Hin. split; [auto|]. symmetry. apply (H2 t None). auto.
  - intros t e Hfailed Hin.
    pose proof (H2 _ _ Hfailed) as Ha. pose proof (H2 _ _ (H1 _ Hin)) as Hb.
    congruence.
Qed.

(** ** Input validation, the request handler and the relay *)

Lemma lstrip_whitespace s : whitespace_only s = true -> lstrip s = EmptyString.
Proof.
  induction s as [|c s IH]; cbn; [reflexivity|].
  intros H. apply andb_true_iff in H as [Hc Hs]. rewrite Hc. auto.
Qed.

Lemma rstrip_empty s : rstrip s = EmptyString -> whitespace_only s = true.
Proof.
  induction s as [|c s IH]; cbn; [reflexivity|].
  destruct (rstrip s) as [|c' r]; [|discriminate].
  destruct (isspace c); [intros _; cbn; auto|discriminate].
Qed.

Lemma lstrip_head s c r : lstrip s = String c r -> isspace c = false.
Proof.
  induction s as [|c0 s IH]; cbn; [discriminate|].
  destruct (isspace c0) eqn:Hc0; [exact IH|].
  intros H. injection H as <- _. exact Hc0.
Qed.

Lemma lstrip_empty s : lstrip s = EmptyString -> whitespace_only s = true.
Proof.
  induction s as [|c s IH]; cbn; [reflexivity|].
  destruct (isspace c); [cbn; exact IH|discriminate].
Qed.

Lemma strip_empty_iff s : strip s = EmptyString <-> whitespace_only s = true.
Proof.
  unfold strip. split.
  - intros H. destruct (lstrip s) as [|c r] eqn:Hl.
    + apply lstrip_empty, Hl.
    + apply rstrip_empty in H. cbn in H. apply andb_true_iff in H as [Hc _].
      apply lstrip_head in Hl. congruence.
  - intros H. rewrite (lstrip_whitespace s H). reflexivity.
Qed.

Lemma len_zero s : len s = 0 <-> s = EmptyString.
Proof.
  unfold len. destruct s; cbn; split; intros H; try reflexivity; try discriminate; lia.
Qed.

Lemma validate_input_accepts s :
  ErrorHandler.validate_input (Some s) = (true, EmptyString)
  <-> whitespace_only s = false /\ len s <= 10000.
Proof.
  unfold ErrorHandler.validate_input.
  destruct s as [|c s]; [cbn; split; [discriminate|intros [H _]; discriminate]|].
  destruct (Z.eqb_spec (len (strip (String c s))) 0) as [Hz|Hnz].
  - apply len_zero, strip_empty_iff in Hz. split; [discriminate|].
    intros [H _]. congruence.
  - assert (whitespace_only (String c s) = false).
    { destruct (whitespace_only (String c s)) eqn:Hw; [|reflexivity].
      apply strip_empty_iff, len_zero in Hw. contradiction. }
    destruct (Z.gtb_spec (len (String c s)) 10000).
    + split; [discriminate|]. intros [_ ?]. lia.
    + split; [intros _; split; [assumption|lia]|reflexivity].
Qed.

Lemma string_length_append (s1 s2 : string) :
  String.length (s1 +:+ s2) = (String.length s1 + String.length s2)%nat.
Proof. induction s1 as [|c s1 IH]; simpl; [reflexivity|]. f_equal. exact IH. Qed.

Lemma length_substring n : forall m s,
  (n + m <= String.length s)%nat -> String.length (String.substring n m s) = m.
Proof.
  induction n as [|n IH]; intros m s H.
  - revert s H. induction m as [|m IHm]; intros s H; destruct s; cbn in *;
      try reflexivity; try lia. rewrite IHm; [reflexivity|lia].
  - destruct s; cbn in *; [lia|]. apply IH. lia.
Qed.

Lemma length_hex width : forall n, String.length (Uuid.hex width n) = width.
Proof.
  induction width as [|width IH]; intros n; [reflexivity|].
  cbn [Uuid.hex]. rewrite string_length_append, IH. cbn. lia.
Qed.

Lemma length_uuid_str i : String.length (Uuid.uuid_str i) = 36%nat.
Proof.
  unfold Uuid.uuid_str. rewrite !string_length_append.
  rewrite !length_substring by (rewrite length_hex; lia). reflexivity.
Qed.

Lemma truthy_uuid_str i : truthy (Some (Uuid.uuid_str i)) = true.
Proof.
  pose proof (length_uuid_str i) as H.
  destruct (Uuid.uuid_str i); [discriminate|reflexivity].
Qed.


Section Handler.
Variable cfg : Config.
Variable env : Env.

Lemma ensure_connected_post w w' r :
  ensure_connected cfg env w = (w', r) ->
  uuid_draws w' = uuid_draws w
  /\ match r with
     | Ok _ => True
     | Raise e => e = NoProvidersAvailable \/ backoff_cap_error cfg = Some e
     | OutOfFuel => False
     end.
Proof.
  unfold ensure_connected. destruct (negb (is_connected w)).
  - change ((log WARNING MReconnecting;; connect_all cfg env)%py w)
      with (connect_all cfg env (log WARNING MReconnecting w).1).
    destruct (decorator_cases cfg) as [Hdec|(mcp_url & e & Hurl & He)].
    + intros Hrun. apply connect_all_post in Hrun as (a & tr & Hsum & Hres);
        [|exact Hdec].
      split; [apply Hsum|].
      destruct r; cbn in Hres; [exact I|tauto|exact Hres].
    + rewrite (connect_all_undefined cfg env _ mcp_url e Hurl He).
      intros H. injection H as <- <-. split; [reflexivity|]. right. exact He.
  - intros H. injection H as <- <-. split; [reflexivity|exact I].
Qed.

(** The outcomes of the [try] block. *)
Lemma streaming_chat_try_post sid req w w' r :
  streaming_chat_try cfg env sid req w = (w', r) ->
  uuid_draws w' = uuid_draws w
  /\ match r with
     | Ok resp =>
         (ErrorHandler.validate_input (arg_input req)).1 = true
         /\ status resp = 200
         /\ response_X_Session_ID resp = Some sid
         /\ exists output, body resp = Stream output
     | Raise e =>
         if (ErrorHandler.validate_input (arg_input req)).1
         then e = NoProvidersAvailable
              \/ backoff_cap_error cfg = Some e
              \/ exists tools, agent_outcome env sid tools = Some e
         else e = ValidationError "streaming_chat"
                    (ErrorHandler.validate_input (arg_input req)).2
              /\ w' = w
     | OutOfFuel => False
     end.
Proof.
  unfold streaming_chat_try.
  destruct (ErrorHandler.validate_input (arg_input req)) as [is_valid verr].
  destruct is_valid; cbn [negb fst snd].
  - unfold bind at 1 2. cbn [log emit].
    match goal with |- context [ensure_connected cfg env ?w1] =>
      destruct (ensure_connected cfg env w1) as [w2 r2] eqn:He end.
    apply ensure_connected_post in He as [Hu Hr2]. cbn in Hu.
    destruct r2 as [u|e|]; [|intros H; injection H as <- <-; tauto|destruct Hr2].
    unfold bind, get_pool, create_agent, agent_arun, bind. cbn.
    destruct (agent_outcome env sid (pool w2)) as [e|] eqn:Ha; cbn;
      intros H; injection H as <- <-; cbn.
    + split; [exact Hu|]. right. right. eauto.
    + split; [exact Hu|]. repeat split. eauto.
  - intros H. injection H as <- <-. auto.
Qed.

(** The run of [resolve_session_id]. *)
Lemma resolve_session_id_run req w :
  exists w1,
    resolve_session_id env req w = (w1, Ok (resolved_session_id env req w))
    /\ pool w1 = pool w /\ next_handle w1 = next_handle w
    /\ truthy (Some (resolved_session_id env req w)) = true
    /\ match header_X_Session_ID req with
       | Some (String _ _) => w1 = w
       | _ => uuid_draws w1 = S (uuid_draws w)
              /\ trace w1 = trace w ++ [EUuid (urandom env (uuid_draws w))]
       end.
Proof.
  unfold resolve_session_id, resolved_session_id.
  destruct (header_X_Session_ID req) as [[|c s]|]; cbn;
    eexists; (split; [reflexivity|]); cbn; repeat split;
    apply truthy_uuid_str.
Qed.
End Handler.

Section HandlerTheorems.
Variable cfg : Config.
Variable env : Env.

(** [streaming_chat] as the run of its [try] block followed by the
    [except] clauses. *)
Lemma streaming_chat_unfold req w :
  let sid := resolved_session_id env req w in
  let w1 := (resolve_session_id env req w).1 in
  streaming_chat cfg env req w =
    match streaming_chat_try cfg env sid req w1 with
    | (w2, Raise e) => streaming_chat_except (Some sid) e w2
    | other => other
    end.
Proof.
  intros sid w1. unfold streaming_chat, bind.
  destruct (resolve_session_id_run env req w) as (w1' & Heq & _).
  subst w1. rewrite Heq. reflexivity.
Qed.

Lemma streaming_chat_except_run sid e w :
  truthy (Some sid) = true ->
  streaming_chat_except (Some sid) e w =
    if is_ValidationError e
    then ((log WARNING (MValidationError (str e)) w).1,
          Ok {| status := 400; body := Text ("Invalid input: " +:+ str e);
                response_X_Session_ID := Some sid |})
    else ((emit (ELog ERROR (MErrorIn "streaming_chat" (str e))
                   (Some (exn_traceback e))) w).1,
          Ok {| status := 500;
                body := Text (ErrorHandler.get_user_friendly_message e);
                response_X_Session_ID := Some sid |}).
Proof.
  intros Ht. unfold streaming_chat_except. rewrite Ht.
  destruct (is_ValidationError e); reflexivity.
Qed.

Lemma validate_input_messages i :
  (ErrorHandler.validate_input i).1 = false ->
  In (ErrorHandler.validate_input i).2
     ["No input provided"; "Input cannot be empty";
      "Input is too long (maximum 10,000 characters)"].
Proof.
  unfold ErrorHandler.validate_input.
  destruct i as [[|c s]|]; cbn [fst snd]; try (cbn; tauto).
  destruct (len (strip (String c s)) =? 0); [cbn; tauto|].
  destruct (len (String c s) >? 10000); [cbn; tauto|discriminate].
Qed.

(** A request whose input is rejected. *)
Lemma streaming_chat_invalid req w :
  (ErrorHandler.validate_input (arg_input req)).1 = false ->
  let w1 := (resolve_session_id env req w).1 in
  let msg := (ErrorHandler.validate_input (arg_input req)).2 in
  streaming_chat cfg env req w =
    ((log WARNING (MValidationError msg) w1).1,
     Ok {| status := 400; body := Text ("Invalid input: " +:+ msg);
           response_X_Session_ID := Some (resolved_session_id env req w) |}).
Proof.
  intros Hv w1 msg. rewrite streaming_chat_unfold. fold w1.
  destruct (streaming_chat_try cfg env (resolved_session_id env req w) req w1)
    as [w2 r] eqn:Ht.
  apply streaming_chat_try_post in Ht as [_ Hr].
  destruct r as [resp|e|]; [destruct Hr as [Hr _]; congruence| |destruct Hr].
  rewrite Hv in Hr. destruct Hr as [-> ->].
  destruct (resolve_session_id_run env req w) as (w1' & _ & _ & _ & Htruthy & _).
  rewrite (streaming_chat_except_run _ _ _ Htruthy). reflexivity.
Qed.
End HandlerTheorems.

(** Claim C6.  [validate_input] rejects a missing input, the empty string,
    every whitespace-only string and every string of more than 10,000
    characters (one of 10,001 in particular); it accepts every string of
    exactly 10,000 characters that is not whitespace only.  When the input
    of a request is rejected, [streaming_chat] answers with status 400 and
    has made no connection attempt, closed, slept, constructed no agent and
    started no run; the pool is untouched. *)
Theorem validate_input_rejects_before_work cfg env req w :
  ErrorHandler.validate_input None = (false, "No input provided")
  /\ ErrorHandler.validate_input (Some EmptyString) = (false, "No input provided")
  /\ (forall s, whitespace_only s = true ->
        (ErrorHandler.validate_input (Some s)).1 = false)
  /\ (forall s, len s > 10000 ->
        (ErrorHandler.validate_input (Some s)).1 = false)
  /\ (ErrorHandler.validate_input (Some (repeat_char "a" (Z.to_nat 10001)))).1 = false
  /\ (forall s, len s = 10000 -> whitespace_only s = false ->
        ErrorHandler.validate_input (Some s) = (true, EmptyString))
  /\ ErrorHandler.validate_input (Some (repeat_char "a" (Z.to_nat 10000)))
     = (true, EmptyString)
  /\ ((ErrorHandler.validate_input (arg_input req)).1 = false ->
      exists resp tr,
        (streaming_chat cfg env req w).2 = Ok resp
        /\ status resp = 400
        /\ pool (streaming_chat cfg env req w).1 = pool w
        /\ next_handle (streaming_chat cfg env req w).1 = next_handle w
        /\ extends w (streaming_chat cfg env req w).1 tr
        /\ attempts_of tr = [] /\ closes_of tr = [] /\ sleeps_of tr = []
        /\ agents_of tr = [] /\ runs_of tr = []).
Proof.
  assert (Hrej : forall s, ErrorHandler.validate_input (Some s) <> (true, EmptyString) ->
                   (ErrorHandler.validate_input (Some s)).1 = false).
  { intros s Hne. unfold ErrorHandler.validate_input in *.
    destruct s as [|c s]; [reflexivity|].
    destruct (len (strip (String c s)) =? 0); [reflexivity|].
    destruct (len (String c s) >? 10000); [reflexivity|congruence]. }
  split; [reflexivity|]. split; [reflexivity|].
  split; [|split; [|split; [|split; [|split]]]].
  - intros s Hs. apply Hrej. rewrite validate_input_accepts. intros [H _]. congruence.
  - intros s Hs. apply Hrej. rewrite validate_input_accepts. intros [_ H]. lia.
  - vm_compute. reflexivity.
  - intros s Hlen Hw. apply validate_input_accepts. split; [exact Hw|lia].
  - vm_compute. reflexivity.
  - intros Hv. rewrite (streaming_chat_invalid cfg env req w Hv).
    destruct (resolve_session_id_run env req w) as (w1 & Heq & Hp & Hh & _ & Hw1).
    rewrite Heq. cbn [fst snd].
    eexists. exists (match header_X_Session_ID req with
                     | Some (String _ _) => []
                     | _ => [EUuid (urandom env (uuid_draws w))]
                     end ++ [ELog WARNING (MValidationError
                               (ErrorHandler.validate_input (arg_input req)).2) None]).
    split; [reflexivity|]. split; [reflexivity|].
    split; [exact Hp|]. split; [exact Hh|].
    split.
    + unfold extends. cbn.
      destruct (header_X_Session_ID req) as [[|c s]|]; cbn.
      * destruct Hw1 as [_ ->]. rewrite <- app_assoc. reflexivity.
      * subst w1. reflexivity.
      * destruct Hw1 as [_ ->]. rewrite <- app_assoc. reflexivity.
    + destruct (header_X_Session_ID req) as [[|c s]|]; repeat split.
Qed.


Lemma relay_app a b : relay (a ++ b) = relay a ++ relay b.
Proof.
  induction a as [|chunk a IH]; cbn; [reflexivity|].
  destruct (String.eqb (event chunk) "RunContent"); cbn; rewrite IH; reflexivity.
Qed.

Lemma relay_filter chunks :
  relay chunks = map content (List.filter is_content chunks).
Proof.
  induction chunks as [|chunk chunks IH]; cbn; [reflexivity|].
  unfold is_content at 1.
  destruct (String.eqb (event chunk) "RunContent"); cbn; rewrite IH; reflexivity.
Qed.

Lemma agent_chat_generate_relay chunks : AgentChat.generate chunks = relay chunks.
Proof.
  induction chunks as [|chunk chunks IH]; cbn; [reflexivity|]. rewrite IH. reflexivity.
Qed.

(** Claim C7.  The fragments [generate] yields are the contents of the
    events tagged 'RunContent', in the order of the run; an event with any
    other tag can be removed from the run without changing the fragments or
    the bytes of the body.  When the run raises, the message of
    [handle_streaming_error] follows the fragments; it comes from the
    exception, not from an event. *)
Theorem only_content_events_are_relayed (output : Run) (w : World) :
  relay (run_events output)
    = map content (List.filter is_content (run_events output))
  /\ AgentChat.generate (run_events output) = relay (run_events output)
  /\ (forall before chunk after,
        event chunk <> "RunContent" ->
        relay (before ++ chunk :: after) = relay (before ++ after)
        /\ body_text (relay (before ++ chunk :: after))
           = body_text (relay (before ++ after)))
  /\ (forall before chunk after,
        event chunk = "RunContent" ->
        relay (before ++ chunk :: after)
        = relay before ++ content chunk :: relay after)
  /\ (run_failure output = None ->
        generate output w = (w, Ok (relay (run_events output))))
  /\ (forall e, run_failure output = Some e ->
        exists error_msg,
          (generate output w).2 = Ok (relay (run_events output) ++ [error_msg])
          /\ (ErrorHandler.handle_streaming_error e w).2 = Ok error_msg).
Proof.
  split; [apply relay_filter|]. split; [apply agent_chat_generate_relay|].
  split; [|split; [|split]].
  - intros before chunk after Hne.
    assert (H : relay (before ++ chunk :: after) = relay (before ++ after)).
    { rewrite !relay_app. cbn.
      destruct (String.eqb_spec (event chunk) "RunContent"); [contradiction|reflexivity]. }
    rewrite H. split; reflexivity.
  - intros before chunk after Heq. rewrite relay_app. cbn.
    rewrite Heq. reflexivity.
  - intros Hnone. unfold generate. rewrite Hnone. reflexivity.
  - intros e Hsome. unfold generate. rewrite Hsome.
    unfold ErrorHandler.handle_streaming_error, bind. cbn.
    destruct (contains "context_length_exceeded" (str e)
              || contains "maximum context length" (str e));
      cbn; eexists; split; reflexivity.
Qed.

Section SessionHeader.
Variable cfg : Config.
Variable env : Env.

(** The response of [streaming_chat] in every case. *)
Lemma streaming_chat_response req w :
  exists resp,
    (streaming_chat cfg env req w).2 = Ok resp
    /\ response_X_Session_ID resp = Some (resolved_session_id env req w)
    /\ (status resp = 200 \/ status resp = 400 \/ status resp = 500)
    /\ uuid_draws (streaming_chat cfg env req w).1
       = uuid_draws (resolve_session_id env req w).1.
Proof.
  rewrite streaming_chat_unfold.
  destruct (resolve_session_id_run env req w) as (w1 & Heq & _ & _ & Htruthy & _).
  rewrite Heq. cbn [fst].
  destruct (streaming_chat_try cfg env (resolved_session_id env req w) req w1)
    as [w2 r] eqn:Ht.
  apply streaming_chat_try_post in Ht as [Hu Hr].
  destruct r as [resp|e|]; [| |destruct Hr].
  - destruct Hr as (_ & Hs & Hh & _). exists resp. cbn. auto.
  - rewrite (streaming_chat_except_run _ _ _ Htruthy).
    destruct (is_ValidationError e); eexists; cbn;
      (split; [reflexivity|]); (split; [reflexivity|]); (split; [tauto|]);
      exact Hu.
Qed.
End SessionHeader.

(** Claim C8.  [streaming_chat] always returns a response, with status
    200, 400 or 500, and its X-Session-ID header is the resolved identity:
    the header of the request when that is non-empty, else the string (36
    characters) of a UUID drawn for this request. *)
Theorem session_id_header_on_every_response cfg env req w :
  exists resp,
    (streaming_chat cfg env req w).2 = Ok resp
    /\ (status resp = 200 \/ status resp = 400 \/ status resp = 500)
    /\ response_X_Session_ID resp = Some (resolved_session_id env req w)
    /\ (forall sid, header_X_Session_ID req = Some sid -> sid <> EmptyString ->
          response_X_Session_ID resp = Some sid
          /\ uuid_draws (streaming_chat cfg env req w).1 = uuid_draws w)
    /\ (header_X_Session_ID req = None \/ header_X_Session_ID req = Some EmptyString ->
          let fresh := Uuid.uuid_str (Uuid.uuid4_int (urandom env (uuid_draws w))) in
          response_X_Session_ID resp = Some fresh
          /\ String.length fresh = 36%nat
          /\ uuid_draws (streaming_chat cfg env req w).1 = S (uuid_draws w)).
Proof.
  destruct (streaming_chat_response cfg env req w) as (resp & Hr & Hh & Hs & Hu).
  destruct (resolve_session_id_run env req w) as (w1 & Heq & _ & _ & _ & Hw1).
  rewrite Heq in Hu. cbn [fst] in Hu.
  exists resp. split; [exact Hr|]. split; [exact Hs|]. split; [exact Hh|].
  unfold resolved_session_id in Hh. split.
  - intros sid Hsid Hne. rewrite Hsid in Hh, Hw1.
    destruct sid as [|c s]; [congruence|]. subst w1. auto.
  - intros Hnone fresh.
    assert (Hh' : response_X_Session_ID resp = Some fresh
                  /\ uuid_draws w1 = S (uuid_draws w)).
    { destruct Hnone as [Hn|Hn]; rewrite Hn in Hh, Hw1; tauto. }
    destruct Hh' as [Hh' Hu']. split; [exact Hh'|].
    split; [apply length_uuid_str|congruence].
Qed.

Lemma contains_prefix pat rest : contains pat (pat +:+ rest) = true.
Proof.
  assert (H : String.prefix pat (pat +:+ rest) = true).
  { induction pat as [|c pat IH]; simpl; [destruct rest; reflexivity|].
    destruct (ascii_dec c c); [exact IH|contradiction]. }
  destruct (pat +:+ rest); cbn in *; rewrite H; reflexivity.
Qed.

Lemma contains_append before pat rest :
  contains pat (before +:+ pat +:+ rest) = true.
Proof.
  induction before as [|c before IH].
  - change (EmptyString +:+ pat +:+ rest) with (pat +:+ rest). apply contains_prefix.
  - change (String c before +:+ pat +:+ rest)
      with (String c (before +:+ pat +:+ rest)).
    cbn [contains]. rewrite IH. apply orb_true_r.
Qed.

(** Claim C9.  A rejected input gives status 400 and the body
    "Invalid input: " followed by one of the three messages of
    [validate_input].  Any other exception of the [try] block gives status
    500, the body [get_user_friendly_message e], and an ERROR log entry
    with the text of the error and its traceback.  The message is chosen by
    the substrings of the lower-cased error text, in the order context
    length, network, rate limit, forbidden, unauthorized, timeout, and is
    otherwise the fallback, which contains the text of the error.  It does
    not depend on the traceback of the exception. *)
Theorem streaming_chat_error_responses cfg env req w :
  let sid := resolved_session_id env req w in
  let w1 := (resolve_session_id env req w).1 in
  let msg := (ErrorHandler.validate_input (arg_input req)).2 in
  ((ErrorHandler.validate_input (arg_input req)).1 = false ->
     streaming_chat cfg env req w =
       ((log WARNING (MValidationError msg) w1).1,
        Ok {| status := 400; body := Text ("Invalid input: " +:+ msg);
              response_X_Session_ID := Some sid |})
     /\ In msg ["No input provided"; "Input cannot be empty";
                "Input is too long (maximum 10,000 characters)"])
  /\ (forall e w2,
        streaming_chat_try cfg env sid req w1 = (w2, Raise e) ->
        is_ValidationError e = false ->
        streaming_chat cfg env req w =
          ((emit (ELog ERROR (MErrorIn "streaming_chat" (str e))
                    (Some (exn_traceback e))) w2).1,
           Ok {| status := 500;
                 body := Text (ErrorHandler.get_user_friendly_message e);
                 response_X_Session_ID := Some sid |}))
  /\ (forall e,
        let s := lower (str e) in
        let m := ErrorHandler.get_user_friendly_message e in
        let context := contains "context_length_exceeded" s
                       || contains "maximum context length" s in
        let network := contains "network" s || contains "connection" s in
        let rate := contains "rate limit" s in
        let forbidden := contains "403" s || contains "forbidden" s in
        let unauthorized := contains "401" s || contains "unauthorized" s in
        let timeout := contains "timeout" s in
        (context = true -> m = ErrorHandler.MSG_CONTEXT)
        /\ (context = false -> network = true -> m = ErrorHandler.MSG_NETWORK)
        /\ (context = false -> network = false -> rate = true ->
            m = ErrorHandler.MSG_RATE_LIMIT)
        /\ (context = false -> network = false -> rate = false ->
            forbidden = true -> m = ErrorHandler.MSG_FORBIDDEN)
        /\ (context = false -> network = false -> rate = false ->
            forbidden = false -> unauthorized = true ->
            m = ErrorHandler.MSG_UNAUTHORIZED)
        /\ (context = false -> network = false -> rate = false ->
            forbidden = false -> unauthorized = false -> timeout = true ->
            m = ErrorHandler.MSG_TIMEOUT)
        /\ (context = false -> network = false -> rate = false ->
            forbidden = false -> unauthorized = false -> timeout = false ->
            m = ErrorHandler.MSG_DEFAULT (str e)
            /\ contains (str e) m = true))
  /\ (forall c1 c2 message traceback1 traceback2,
        ErrorHandler.get_user_friendly_message (Exn c1 message traceback1)
        = ErrorHandler.get_user_friendly_message (Exn c2 message traceback2)).
Proof.
  intros sid w1 msg. split; [|split; [|split]].
  - intros Hv. split; [apply streaming_chat_invalid, Hv|].
    apply validate_input_messages, Hv.
  - intros e w2 Ht Hcls. rewrite streaming_chat_unfold. fold sid w1. rewrite Ht.
    destruct (resolve_session_id_run env req w) as (w1' & _ & _ & _ & Htruthy & _).
    rewrite (streaming_chat_except_run _ _ _ Htruthy), Hcls. reflexivity.
  - intros e s m context network rate forbidden unauthorized timeout.
    subst m. unfold ErrorHandler.get_user_friendly_message.
    fold s. fold context network rate forbidden unauthorized timeout.
    repeat split; intros; 
      repeat match goal with H : _ = _ :> bool |- _ => rewrite H; clear H end;
      try reflexivity.
    unfold ErrorHandler.MSG_DEFAULT. apply contains_append.
  - reflexivity.
Qed.

(** ** The API usage tracker *)

Module UsageFacts.
Import Usage.

Lemma bump_endpoint (e : gmap string Z) endpoint :
  alter (fun n => n + 1) endpoint
    (match e !! endpoint with None => <[endpoint := 0]> e | Some _ => e end)
  = <[endpoint := default 0 (e !! endpoint) + 1]> e.
Proof.
  apply map_eq. intros k. destruct (decide (k = endpoint)) as [->|Hne].
  - rewrite lookup_insert_eq. destruct (e !! endpoint) as [n|] eqn:He; cbn.
    + rewrite lookup_alter_eq, He. reflexivity.
    + rewrite lookup_alter_eq, lookup_insert_eq. reflexivity.
  - rewrite lookup_insert_ne by congruence.
    rewrite lookup_alter_ne by congruence.
    destruct (e !! endpoint); [reflexivity|].
    rewrite lookup_insert_ne by congruence. reflexivity.
Qed.

Lemma record_api_call_data clk endpoint t :
  _usage_data (record_api_call clk endpoint t).1
  = <[today_key clk :=
        bump clk endpoint (default (fresh_day clk) (_usage_data t !! today_key clk))]>
      (_usage_data t).
Proof.
  unfold record_api_call, _save_usage.
  destruct (write_ok clk); cbn [fst _usage_data].
  all: apply map_eq; intros k; destruct (decide (k = today_key clk)) as [->|Hne].
  all: try (rewrite lookup_insert_eq, !lookup_alter_eq;
            destruct (_usage_data t !! today_key clk) as [u|] eqn:Hd;
            [rewrite Hd|rewrite lookup_insert_eq]; cbn;
            unfold bump; cbn; rewrite bump_endpoint; reflexivity).
  all: rewrite lookup_insert_ne by congruence;
       rewrite !lookup_alter_ne by congruence;
       destruct (_usage_data t !! today_key clk); [reflexivity|];
       rewrite lookup_insert_ne by congruence; reflexivity.
Qed.

Lemma u_count_count_of today t :
  u_count (get_today_usage today t) = count_of today (_usage_data t).
Proof.
  unfold get_today_usage, count_of.
  destruct (_usage_data t !! today); reflexivity.
Qed.
End UsageFacts.

(** Claim C10.  [record_api_call] leaves an entry for today, raises
    today's count by exactly 1 (from 0 when there was no entry) and the
    count of the named endpoint by exactly 1 (from 0 when it had none); the
    other endpoints and the other days are unchanged.  [can_make_request]
    is true exactly when today's count is below 25. *)
Theorem record_api_call_counts (clk : Usage.Clock) (endpoint : string)
    (t : Usage.Tracker) :
  let today := Usage.today_key clk in
  let t' := (Usage.record_api_call clk endpoint t).1 in
  is_Some (Usage._usage_data t' !! today)
  /\ Usage.u_count (Usage.get_today_usage today t')
     = Usage.u_count (Usage.get_today_usage today t) + 1
  /\ Usage.count_of today (Usage._usage_data t')
     = Usage.count_of today (Usage._usage_data t) + 1
  /\ Usage.endpoint_count_of today endpoint (Usage._usage_data t')
     = Usage.endpoint_count_of today endpoint (Usage._usage_data t) + 1
  /\ (forall other, other <> endpoint ->
        Usage.endpoint_count_of today other (Usage._usage_data t')
        = Usage.endpoint_count_of today other (Usage._usage_data t))
  /\ (forall day, day <> today ->
        Usage._usage_data t' !! day = Usage._usage_data t !! day)
  /\ (forall day t0,
        Usage.can_make_request day t0 = true
        <-> Usage.u_count (Usage.get_today_usage day t0) < 25).
Proof.
  intros today t'.
  assert (Hd := UsageFacts.record_api_call_data clk endpoint t).
  fold t' today in Hd.
  assert (Hcount : Usage.count_of today (Usage._usage_data t')
                   = Usage.count_of today (Usage._usage_data t) + 1).
  { unfold Usage.count_of. rewrite Hd, lookup_insert_eq.
    destruct (Usage._usage_data t !! today); reflexivity. }
  split; [rewrite Hd, lookup_insert_eq; eauto|].
  split; [rewrite !UsageFacts.u_count_count_of; exact Hcount|].
  split; [exact Hcount|].
  split; [|split; [|split]].
  - unfold Usage.endpoint_count_of. rewrite Hd, lookup_insert_eq. cbn.
    rewrite lookup_insert_eq.
    destruct (Usage._usage_data t !! today) as [u|]; cbn; [reflexivity|].
    rewrite lookup_empty. reflexivity.
  - intros other Hne. unfold Usage.endpoint_count_of.
    rewrite Hd, lookup_insert_eq. cbn.
    rewrite lookup_insert_ne by congruence.
    destruct (Usage._usage_data t !! today) as [u|]; cbn; [reflexivity|].
    rewrite lookup_empty. reflexivity.
  - intros day Hne. rewrite Hd. apply lookup_insert_ne. congruence.
  - intros day t0. unfold Usage.can_make_request, Usage.get_today_usage.
    destruct (Usage._usage_data t0 !! day) as [u|]; cbn [Usage.u_remaining Usage.u_count].
    + destruct (Z.gtb_spec (Z.max 0 (25 - Usage.count u)) 0); split; intros; try lia; try discriminate; reflexivity.
    + split; [lia|reflexivity].
Qed.

(** ** End-to-end scenarios of the request handler *)

(** No session header and the input "hello": status 200, a generated
    identity in the header, and the body "Hi there". *)
Example hello_scenario :
  let req := {| header_X_Session_ID := None; arg_input := Some "hello" |} in
  let run := streaming_chat (default_config (Some "demo")) env_hello req
               initial_world in
  run.2 = Ok {| status := 200; body := Stream hello_run;
                response_X_Session_ID :=
                  Some "00000000-0000-4000-8000-000000000000" |}
  /\ (generate hello_run run.1).2 = Ok ["Hi"; " there"]
  /\ body_text ["Hi"; " there"] = "Hi there".
Proof. vm_compute. repeat split. Qed.

(** The same request with a session header: the identity is echoed and no
    UUID is drawn. *)
Example resumed_scenario :
  let req := {| header_X_Session_ID := Some "abc-123";
                arg_input := Some "hello" |} in
  let run := streaming_chat (default_config (Some "demo")) env_hello req
               initial_world in
  run.2 = Ok {| status := 200; body := Stream hello_run;
                response_X_Session_ID := Some "abc-123" |}
  /\ uuid_draws run.1 = 0%nat
  /\ agents_of (trace run.1)
     = [("abc-123", [new_MCPTools (ALPHA_VANTAGE_MCP_URL_PREFIX +:+ "demo") 0])].
Proof. vm_compute. repeat split. Qed.

(** A blank input: status 400, before any connection or agent. *)
Example blank_input_scenario :
  let req := {| header_X_Session_ID := Some "abc-123";
                arg_input := Some "   " |} in
  streaming_chat (default_config (Some "demo")) env_hello req initial_world
  = ({| pool := []; next_handle := 0; uuid_draws := 0;
        trace := [ELog WARNING (MValidationError "Input cannot be empty") None] |},
     Ok {| status := 400; body := Text "Invalid input: Input cannot be empty";
           response_X_Session_ID := Some "abc-123" |}).
Proof. vm_compute. reflexivity. Qed.

(** No provider can be reached: status 500 with the fallback message, which
    names the cause, and the identity in the header. *)
Example unreachable_scenario :
  let req := {| header_X_Session_ID := Some "abc-123";
                arg_input := Some "hello" |} in
  (streaming_chat (default_config (Some "demo")) env_refusing req
     initial_world).2
  = Ok {| status := 500;
          body := Text (ErrorHandler.MSG_DEFAULT
                          "Failed to connect to any MCP servers");
          response_X_Session_ID := Some "abc-123" |}.
Proof. vm_compute. reflexivity. Qed.

(** The categories of [get_user_friendly_message] on sample errors. *)
Example friendly_messages :
  ErrorHandler.get_user_friendly_message
    (Exception "arun" "Error code: 400 - context_length_exceeded")
  = ErrorHandler.MSG_CONTEXT
  /\ ErrorHandler.get_user_friendly_message
       (Exception "connect" "Connection reset by peer")
     = ErrorHandler.MSG_NETWORK
  /\ ErrorHandler.get_user_friendly_message
       (Exception "arun" "Rate limit reached for requests")
     = ErrorHandler.MSG_RATE_LIMIT
  /\ ErrorHandler.get_user_friendly_message (Exception "arun" "HTTP 403")
     = ErrorHandler.MSG_FORBIDDEN
  /\ ErrorHandler.get_user_friendly_message (Exception "arun" "Unauthorized")
     = ErrorHandler.MSG_UNAUTHORIZED
  /\ ErrorHandler.get_user_friendly_message (Exception "arun" "Read timeout")
     = ErrorHandler.MSG_TIMEOUT.
Proof. vm_compute. repeat split. Qed.

(** ** A day of the usage tracker *)

(** Twenty-four calls leave room for one more; the twenty-fifth does not. *)
Example daily_limit :
  let clk := {| Usage.today_key := "2025-01-15";
                Usage.now_first := "2025-01-15T09:00:00";
                Usage.now_last := "2025-01-15T09:00:01";
                Usage.write_ok := true |} in
  let call t := (Usage.record_api_call clk "GLOBAL_QUOTE" t).1 in
  let empty := {| Usage._usage_data := ∅; Usage.storage := None |} in
  let t24 := Nat.iter 24 call empty in
  Usage.can_make_request "2025-01-15" empty = true
  /\ Usage.u_count (Usage.get_today_usage "2025-01-15" t24) = 24
  /\ Usage.can_make_request "2025-01-15" t24 = true
  /\ Usage.can_make_request "2025-01-15" (call t24) = false
  /\ Usage.can_make_request "2025-01-16" (call t24) = true.
Proof. vm_compute. repeat split. Qed.

(** * Further properties of the code *)

(** ** The connection manager *)

(** Property X1.  Without an Alpha Vantage key ([None] or the empty string)
    [connect_all] makes no connection attempt and does not sleep: it logs
    the missing key at ERROR, leaves the pool, the handles and the UUID
    counter as they were, and raises 'Failed to connect to any MCP
    servers'. *)
Theorem connect_all_without_key cfg env w :
  truthy (ALPHA_VANTAGE_API_KEY cfg) = false ->
  connect_all cfg env w =
    ({| pool := pool w; next_handle := next_handle w;
        uuid_draws := uuid_draws w;
        trace := trace w ++ [ELog ERROR MNoApiKey None] |},
     Raise NoProvidersAvailable).
Proof.
  intros Hkey. unfold connect_all, _open_connections, _connect_alpha_vantage,
    get_alpha_vantage_url.
  destruct (ALPHA_VANTAGE_API_KEY cfg) as [[|c k]|]; try discriminate; reflexivity.
Qed.

Lemma connect_all_without_key_witness :
  truthy (ALPHA_VANTAGE_API_KEY (default_config (Some EmptyString))) = false
  /\ attempts_of (trace (connect_all (default_config (Some EmptyString)) env_hello
                           initial_world).1) = []
  /\ (connect_all (default_config (Some EmptyString)) env_hello initial_world).2
     = Raise NoProvidersAvailable.
Proof.
  assert (H : truthy (ALPHA_VANTAGE_API_KEY (default_config (Some EmptyString))) = false)
    by reflexivity.
  split; [exact H|].
  rewrite (connect_all_without_key _ env_hello initial_world H). split; reflexivity.
Defined.

Section MoreConnect.
Variable cfg : Config.
Variable env : Env.
Variable mcp_url : string.
Hypothesis Hurl : get_alpha_vantage_url cfg = Some mcp_url.

Lemma provider_url_is : provider_url cfg = mcp_url.
Proof. unfold provider_url. rewrite Hurl. reflexivity. Qed.

(** The loop stops at the first success. *)
Lemma connect_all_first_success w (j : nat) :
  (1 <= j)%nat -> Z.of_nat j <= MCP_CONNECTION_RETRIES cfg ->
  all_failed env mcp_url (next_handle w) (j - 1) ->
  connect_outcome env (new_MCPTools mcp_url (next_handle w + j - 1)) = None ->
  (connect_all cfg env w).2 = Ok tt
  /\ pool (connect_all cfg env w).1 = [new_MCPTools mcp_url (next_handle w + j - 1)]
  /\ next_handle (connect_all cfg env w).1 = (next_handle w + j)%nat
  /\ exists tr, extends w (connect_all cfg env w).1 tr
                /\ length (attempts_of tr) = j
                /\ sleeps_of tr = map (retry_wait cfg) (attempt_numbers 1 (j - 1)).
Proof.
  intros Hj HjN Hfail Hok.
  destruct (connect_all cfg env w) as [w' r] eqn:Hrun.
  apply connect_all_post in Hrun as (a & tr & Hsum & Hres);
    [|apply retries_decorator_defined; lia].
  rewrite provider_url_is in *.
  destruct Hsum as [Htr Huu Hnh Hat Hbd Hsl Hcl Hag].
  destruct r as [u|e|]; cbn in *.
  - destruct Hres as (t & (Ha & -> & Hok' & Hf') & Hp).
    rewrite provider_url_is in *.
    assert (a = j).
    { destruct (Nat.lt_trichotomy a j) as [Hlt|[Heq|Hgt]]; [exfalso|exact Heq|exfalso].
      - apply (Hfail (next_handle w + a - 1)%nat); [lia|exact Hok'].
      - apply (Hf' (next_handle w + j - 1)%nat); [lia|exact Hok]. }
    subst a. destruct u. repeat split; [exact Hp|exact Hnh|].
    exists tr. repeat split; [exact Htr| |exact Hsl].
    rewrite Hat. apply length_attempts_from.
  - exfalso. destruct Hres as (_ & _ & Hf & [[Hnone _]|[_ Ha]]); [congruence|].
    rewrite provider_url_is in Hf.
    apply (Hf (next_handle w + j - 1)%nat); [lia|exact Hok].
  - destruct Hres.
Qed.
End MoreConnect.

(** Property X2.  With a key configured, if the first [j - 1] connection
    attempts of a call fail and the [j]-th succeeds, for [j] within the
    retry count, then [connect_all] returns normally, the pool is exactly
    the object of the [j]-th attempt, [j] attempts were made and no more,
    and the waits are those after the attempts 1 to [j - 1]. *)
Theorem connect_all_stops_at_first_success cfg env mcp_url w (j : nat) :
  get_alpha_vantage_url cfg = Some mcp_url ->
  (1 <= j)%nat -> Z.of_nat j <= MCP_CONNECTION_RETRIES cfg ->
  all_failed env mcp_url (next_handle w) (j - 1) ->
  connect_outcome env (new_MCPTools mcp_url (next_handle w + j - 1)) = None ->
  (connect_all cfg env w).2 = Ok tt
  /\ pool (connect_all cfg env w).1 = [new_MCPTools mcp_url (next_handle w + j - 1)]
  /\ exists tr, extends w (connect_all cfg env w).1 tr
                /\ length (attempts_of tr) = j
                /\ sleeps_of tr = map (retry_wait cfg) (attempt_numbers 1 (j - 1)).
Proof.
  intros Hurl Hj HjN Hfail Hok.
  destruct (connect_all_first_success cfg env mcp_url Hurl w j Hj HjN Hfail Hok)
    as (Hr & Hp & _ & Htr).
  auto.
Qed.

Lemma connect_all_stops_at_first_success_witness :
  let cfg := default_config (Some "demo") in
  let env := env_success_at 1 in
  let url := ALPHA_VANTAGE_MCP_URL_PREFIX +:+ "demo" in
  (1 <= 2)%nat /\ Z.of_nat 2 <= MCP_CONNECTION_RETRIES cfg
  /\ (connect_all cfg env initial_world).2 = Ok tt
  /\ pool (connect_all cfg env initial_world).1 = [new_MCPTools url 1]
  /\ sleeps_of (trace (connect_all cfg env initial_world).1) = [1].
Proof.
  intros cfg env url.
  assert (H1 : (1 <= 2)%nat) by lia.
  assert (H2 : Z.of_nat 2 <= MCP_CONNECTION_RETRIES cfg) by (cbn; lia).
  destruct (connect_all_stops_at_first_success cfg env url initial_world 2)
    as (Hr & Hp & _); try assumption.
  - reflexivity.
  - intros i Hi. assert (i = 0%nat) by (cbn in Hi; lia). subst i. cbn. discriminate.
  - reflexivity.
  - split; [exact H1|]. split; [exact H2|]. split; [exact Hr|].
    split; [exact Hp|reflexivity].
Defined.

(** Property X3.  [connect_all] never closes a session and never
    constructs an agent, and it always ends.  When it returns, the pool is
    exactly one object, made during the call, whatever the pool held
    before (the sessions it held are dropped without [close()]); when it
    raises, the pool is unchanged. *)
Theorem connect_all_replaces_pool cfg env w :
  exists tr,
    extends w (connect_all cfg env w).1 tr
    /\ closes_of tr = []
    /\ agents_of tr = []
    /\ match (connect_all cfg env w).2 with
       | Ok _ => exists t, pool (connect_all cfg env w).1 = [t]
                           /\ (next_handle w <= handle t)%nat
       | Raise _ => pool (connect_all cfg env w).1 = pool w
       | OutOfFuel => False
       end.
Proof.
  destruct (decorator_cases cfg) as [Hdec|(mcp_url & e & Hurl & He)].
  2:{ rewrite (connect_all_undefined cfg env w mcp_url e Hurl He). cbn.
      exists []. unfold extends. rewrite app_nil_r. repeat split. }
  destruct (connect_all cfg env w) as [w' r] eqn:Hrun.
  apply connect_all_post in Hrun as (a & tr & Hsum & Hres); [|exact Hdec].
  destruct Hsum as [Htr Huu Hnh Hat Hbd Hsl Hcl Hag].
  exists tr. cbn. split; [exact Htr|]. split; [exact Hcl|]. split; [exact Hag|].
  destruct r as [u|e|]; cbn in *.
  - destruct Hres as (t & (Ha & -> & _) & Hp). exists (new_MCPTools (provider_url cfg)
      (next_handle w + a - 1)). split; [exact Hp|cbn; lia].
  - tauto.
  - exact Hres.
Qed.


Section RetryLogs.
Variable cfg : Config.
Variable env : Env.
Let N := MCP_CONNECTION_RETRIES cfg.

End RetryLogs.



Section ConnectLogs.
Variable cfg : Config.
Variable env : Env.

End ConnectLogs.


Section Connected.
Variable cfg : Config.
Variable env : Env.

Lemma ensure_connected_noop w :
  pool w <> [] -> ensure_connected cfg env w = (w, Ok tt).
Proof.
  intros Hp. unfold ensure_connected, is_connected.
  destruct (pool w); [congruence|reflexivity].
Qed.

(** The [try] block on a connected pool and an accepted input. *)
Lemma streaming_chat_try_connected sid req w :
  pool w <> [] ->
  (ErrorHandler.validate_input (arg_input req)).1 = true ->
  let input := default EmptyString (arg_input req) in
  let w1 := add_events w [ELog INFO (MProcessing (take 8 sid) (take 50 input)) None;
                          ELog INFO (MCreatingAgent sid) None] in
  streaming_chat_try cfg env sid req w =
    match agent_outcome env sid (pool w) with
    | Some e => (w1, Raise e)
    | None =>
        (add_events w1 [EAgent sid (pool w);
                        ELog INFO (MAgentCreated (length (pool w))) None;
                        ERun sid input],
         Ok {| status := 200; body := Stream (arun env sid input);
               response_X_Session_ID := Some sid |})
    end.
Proof.
  intros Hp Hv input w1. unfold streaming_chat_try.
  destruct (ErrorHandler.validate_input (arg_input req)) as [is_valid verr].
  cbn in Hv. subst is_valid. cbn [negb].
  unfold bind at 1. cbn [log emit].
  unfold bind at 1.
  rewrite ensure_connected_noop by exact Hp.
  unfold bind, get_pool, create_agent, agent_arun, bind, log, emit, ret, raise. cbn.
  fold input.
  destruct (agent_outcome env sid (pool w)); unfold w1, add_events; cbn;
    rewrite <- ?app_assoc; reflexivity.
Qed.

(** A request on a connected pool. *)
Lemma streaming_chat_connected req w :
  pool w <> [] ->
  exists tr,
    extends w (streaming_chat cfg env req w).1 tr
    /\ pool (streaming_chat cfg env req w).1 = pool w
    /\ next_handle (streaming_chat cfg env req w).1 = next_handle w
    /\ attempts_of tr = [] /\ sleeps_of tr = [] /\ closes_of tr = []
    /\ Forall (fun a => a.2 = pool w) (agents_of tr).
Proof.
  intros Hp. rewrite streaming_chat_unfold.
  destruct (resolve_session_id_run env req w) as (w1 & Heq & Hp1 & Hh1 & Htruthy & Hw1).
  rewrite Heq. cbn [fst].
  set (sid := resolved_session_id env req w) in *.
  assert (Hext1 : exists tr1, trace w1 = trace w ++ tr1 /\ attempts_of tr1 = []
            /\ sleeps_of tr1 = [] /\ closes_of tr1 = [] /\ agents_of tr1 = []).
  { destruct (header_X_Session_ID req) as [[|c s]|].
    - destruct Hw1 as [_ ->]. eexists. repeat split.
    - subst w1. exists []. rewrite app_nil_r. repeat split.
    - destruct Hw1 as [_ ->]. eexists. repeat split. }
  destruct Hext1 as (tr1 & Ht1 & Ha1 & Hs1 & Hc1 & Hg1).
  assert (Hp1' : pool w1 <> []) by congruence.
  destruct (ErrorHandler.validate_input (arg_input req)).1 eqn:Hv.
  - rewrite (streaming_chat_try_connected sid req w1 Hp1' Hv).
    destruct (agent_outcome env sid (pool w1)) as [e|].
    + rewrite (streaming_chat_except_run _ _ _ Htruthy).
      destruct (is_ValidationError e); unfold add_events, log, emit; cbn;
        eexists (tr1 ++ [_; _; _]);
        unfold extends; cbn; rewrite Ht1, <- !app_assoc;
        (split; [reflexivity|]);
        unfold attempts_of, sleeps_of, closes_of, agents_of in *;
        rewrite !omap_app, Ha1, Hs1, Hc1, Hg1; cbn; repeat split; auto.
    + unfold add_events; cbn. eexists (tr1 ++ [_; _; _; _; _]).
      unfold extends; cbn; rewrite Ht1, <- !app_assoc.
      split; [reflexivity|].
      unfold attempts_of, sleeps_of, closes_of, agents_of in *.
      rewrite !omap_app, Ha1, Hs1, Hc1, Hg1; cbn. repeat split; auto.
  - destruct (streaming_chat_try cfg env sid req w1) as [w2 r] eqn:Ht.
    apply streaming_chat_try_post in Ht as [_ Hr].
    destruct r as [resp|e|]; [destruct Hr as [Hr _]; congruence| |destruct Hr].
    rewrite Hv in Hr. destruct Hr as [-> ->].
    rewrite (streaming_chat_except_run _ _ _ Htruthy). unfold log, emit; cbn.
    eexists (tr1 ++ [_]). unfold extends. cbn. rewrite Ht1, <- !app_assoc.
    split; [reflexivity|].
    unfold attempts_of, sleeps_of, closes_of, agents_of in *.
    rewrite !omap_app, Ha1, Hs1, Hc1, Hg1; cbn. repeat split; auto.
Qed.

Lemma serve_connected reqs : forall w,
  pool w <> [] ->
  exists tr,
    extends w (serve cfg env reqs w) tr
    /\ pool (serve cfg env reqs w) = pool w
    /\ attempts_of tr = [] /\ sleeps_of tr = [] /\ closes_of tr = []
    /\ Forall (fun a => a.2 = pool w) (agents_of tr).
Proof.
  induction reqs as [|req reqs IH]; intros w Hp; cbn.
  - exists []. unfold extends. rewrite app_nil_r. repeat split. constructor.
  - destruct (streaming_chat_connected req w Hp)
      as (tr1 & Ht1 & Hp1 & _ & Ha1 & Hs1 & Hc1 & Hg1).
    destruct (IH (streaming_chat cfg env req w).1) as (tr2 & Ht2 & Hp2 & Ha2 & Hs2 & Hc2 & Hg2).
    { congruence. }
    exists (tr1 ++ tr2). unfold extends in *.
    split; [rewrite Ht2, Ht1, app_assoc; reflexivity|].
    split; [congruence|].
    unfold attempts_of, sleeps_of, closes_of, agents_of in *.
    rewrite !omap_app, Ha1, Ha2, Hs1, Hs2, Hc1, Hc2. repeat split.
    apply Forall_app. split; [exact Hg1|]. rewrite Hp1 in Hg2. exact Hg2.
Qed.
End Connected.

Section Lifecycle.
Import StockApp.
Variable s : Settings.
Variable env : Env.

(** ** Configuration, start-up and shut-down *)

(** Property X6.  [Config.validate] accepts exactly the configurations
    with both keys set to non-empty strings; its error list is empty
    exactly then, and otherwise names the missing keys, Alpha Vantage
    first.  [create_app] raises [ConfigurationError] exactly when the
    validation fails, after one ERROR record per error, and logs nothing
    otherwise. *)
Theorem validate_reports_missing_keys :
  let missing (key : option string) := negb (truthy key) in
  ((validate s).1 = true
     <-> truthy (ALPHA_VANTAGE_API_KEY (mcp_config s)) = true
         /\ truthy (OPENAI_API_KEY s) = true)
  /\ ((validate s).1 = true <-> (validate s).2 = [])
  /\ (validate s).2
     = (if missing (ALPHA_VANTAGE_API_KEY (mcp_config s))
        then [ERR_ALPHA_VANTAGE_KEY] else [])
       ++ (if missing (OPENAI_API_KEY s) then [ERR_OPENAI_KEY] else [])
  /\ ((create_app s).1 = Raise ConfigurationError <-> (validate s).1 = false)
  /\ ((create_app s).1 = Ok tt <-> (validate s).1 = true)
  /\ (create_app s).2 = map (fun error => (ERROR, AConfigError error)) (validate s).2.
Proof.
  unfold create_app, validate.
  destruct (truthy (ALPHA_VANTAGE_API_KEY (mcp_config s)));
    destruct (truthy (OPENAI_API_KEY s)); cbn;
    repeat split; intros; try tauto; try discriminate;
    repeat match goal with H : _ /\ _ |- _ => destruct H end; try discriminate.
Qed.


(** The start-up fails exactly when [connect_all] does, with the same
    exception. *)
Lemma startup_result w :
  (startup s env w).1 = connect_all (mcp_config s) env w.
Proof.
  unfold startup. destruct (connect_all (mcp_config s) env w) as [w1 [[]|e|]];
    reflexivity.
Qed.

Lemma shutdown_result w : (shutdown env w).1 = disconnect_all env w.
Proof.
  unfold shutdown. destruct (disconnect_all env w) as [w1 [[]|e|]]; reflexivity.
Qed.

(** Property X8.  After a [startup] that succeeded the pool is one
    connected session; serving any list of requests makes no connection
    attempt, sleeps and closes nothing and leaves the pool as it is, and
    every agent made gets that session; [shutdown] then returns normally,
    empties the pool and calls [close()] on that session once, whatever
    [close()] does. *)
Theorem application_lifecycle reqs w :
  (startup s env w).1.2 = Ok tt ->
  let w1 := (startup s env w).1.1 in
  let w2 := serve (mcp_config s) env reqs w1 in
  let w3 := (shutdown env w2).1.1 in
  exists t served,
    pool w1 = [t] /\ connect_outcome env t = None
    /\ extends w1 w2 served /\ pool w2 = [t]
    /\ attempts_of served = [] /\ sleeps_of served = [] /\ closes_of served = []
    /\ Forall (fun a => a.2 = [t]) (agents_of served)
    /\ (shutdown env w2).1.2 = Ok tt
    /\ pool w3 = []
    /\ closes_of (trace w3) = closes_of (trace w1) ++ [(t, close_outcome env t)].
Proof.
  rewrite startup_result. intros Hok w1 w2 w3.
  destruct (connect_all (mcp_config s) env w) as [w1' r] eqn:Hrun.
  cbn in Hok. subst r. cbn in w1. subst w1.
  assert (Hdec : decorator_defined (mcp_config s)).
  { destruct (decorator_cases (mcp_config s)) as [Hdec|(mcp_url & e & Hurl & He)];
      [exact Hdec|].
    rewrite (connect_all_undefined (mcp_config s) env w mcp_url e Hurl He) in Hrun.
    discriminate Hrun. }
  apply connect_all_post in Hrun as (a & tr & _ & (t & (_ & _ & Hc & _) & Hp));
    [|exact Hdec].
  assert (Hne : pool w1' <> []) by (rewrite Hp; discriminate).
  destruct (serve_connected (mcp_config s) env reqs w1' Hne)
    as (served & Hext & Hp2 & Ha & Hs & Hc2 & Hg).
  fold w2 in Hext, Hp2.
  exists t, served. rewrite Hp in Hp2, Hg.
  split; [exact Hp|]. split; [exact Hc|]. split; [exact Hext|].
  split; [exact Hp2|]. split; [exact Ha|]. split; [exact Hs|].
  split; [exact Hc2|]. split; [exact Hg|].
  subst w3. rewrite shutdown_result.
  destruct (disconnect_all_run env w2) as (tr3 & Heq & Hcl3 & _).
  rewrite Heq. cbn. split; [reflexivity|]. split; [reflexivity|].
  unfold extends in Hext. rewrite Hext.
  unfold closes_of in *. rewrite !omap_app, Hc2, Hcl3, Hp2. cbn.
  rewrite app_nil_r. reflexivity.
Qed.
End Lifecycle.


(** Both keys set, backoff base 0 and no retries: the start-up raises
    before any attempt. *)
Example startup_zero_division :
  (StockApp.create_app zero_settings).1 = Ok tt
  /\ StockApp.startup zero_settings env_hello initial_world
     = (initial_world, Raise (ZeroDivisionError "_connect_alpha_vantage"),
        [(INFO, StockApp.AStarting); (INFO, StockApp.AUsingModel "gpt-4o-mini");
         (INFO, StockApp.AHistoryRuns 3);
         (ERROR, StockApp.AStartFailed "0.0 cannot be raised to a negative power")]).
Proof. split; reflexivity. Qed.

Lemma application_lifecycle_witness :
  let w1 := (StockApp.startup demo_settings env_hello initial_world).1.1 in
  let w2 := serve (StockApp.mcp_config demo_settings) env_hello [hello_request] w1 in
  (StockApp.startup demo_settings env_hello initial_world).1.2 = Ok tt
  /\ (StockApp.shutdown env_hello w2).1.2 = Ok tt
  /\ pool (StockApp.shutdown env_hello w2).1.1 = [].
Proof.
  intros w1 w2.
  assert (H : (StockApp.startup demo_settings env_hello initial_world).1.2 = Ok tt)
    by reflexivity.
  split; [exact H|].
  pose proof (application_lifecycle demo_settings env_hello [hello_request]
                initial_world H) as P.
  cbv zeta in P.
  destruct P as (t & served & _ & _ & _ & _ & _ & _ & _ & _ & Hs & Hp & _).
  split; [exact Hs|exact Hp].
Defined.

(** Property X5.  On an empty pool [disconnect_all] calls no [close()]:
    it logs the disconnection at INFO, changes nothing else and returns
    normally. *)
Theorem disconnect_all_idle env w :
  pool w = [] ->
  disconnect_all env w = (add_events w [ELog INFO MDisconnected None], Ok tt).
Proof.
  intros Hp. unfold disconnect_all, get_pool. unfold bind at 1.
  rewrite Hp. destruct w; cbn in *. subst. reflexivity.
Qed.

Lemma disconnect_all_idle_witness :
  pool initial_world = []
  /\ disconnect_all env_hello initial_world
     = (add_events initial_world [ELog INFO MDisconnected None], Ok tt).
Proof.
  assert (H : pool initial_world = []) by reflexivity.
  split; [exact H|]. exact (disconnect_all_idle env_hello initial_world H).
Defined.

Lemma prefix_lower pat : forall s,
  String.prefix pat s = true -> String.prefix (lower pat) (lower s) = true.
Proof.
  induction pat as [|c pat IH]; intros s H; [destruct s; reflexivity|].
  destruct s as [|d s]; [discriminate|]. cbn in *.
  destruct (ascii_dec c d) as [->|]; [|discriminate].
  destruct (ascii_dec (lower_char d) (lower_char d)); [auto|contradiction].
Qed.

Lemma contains_lower pat s :
  contains pat s = true -> contains (lower pat) (lower s) = true.
Proof.
  induction s as [|c s IH]; cbn [contains lower]; intros H.
  - apply orb_true_iff in H as [H|H]; [|discriminate].
    apply prefix_lower in H. cbn [lower] in H. rewrite H. reflexivity.
  - apply orb_true_iff in H as [H|H].
    + apply prefix_lower in H. cbn [lower] in H. rewrite H. reflexivity.
    + rewrite (IH H). apply orb_true_r.
Qed.

(** ** Error messages and the request handler *)

(** Property X9.  [handle_streaming_error] always returns a message and
    logs the error once at ERROR.  The message is the context-limit notice
    exactly when the text of the error contains 'context_length_exceeded'
    or 'maximum context length' as written, and then
    [get_user_friendly_message] also classifies the error as a context
    overflow; otherwise it is the generic message around the text of the
    error.  The test is case-sensitive, unlike the one of
    [get_user_friendly_message]: the marker in capitals gets the generic
    message here and the context message there. *)
Theorem handle_streaming_error_message e w :
  let marked := contains "context_length_exceeded" (str e)
                || contains "maximum context length" (str e) in
  let shouted := Exception "arun" "CONTEXT_LENGTH_EXCEEDED" in
  exists msg,
    ErrorHandler.handle_streaming_error e w
    = (add_events w [ELog ERROR (MStreamingError (str e)) None], Ok msg)
    /\ (msg = ErrorHandler.MSG_STREAM_CONTEXT <-> marked = true)
    /\ (marked = true ->
        ErrorHandler.get_user_friendly_message e = ErrorHandler.MSG_CONTEXT)
    /\ (marked = false ->
        msg = nl +:+ nl +:+ "**Error**: " +:+ str e +:+ nl +:+ nl +:+
              "Please try again or rephrase your question."
        /\ contains (str e) msg = true)
    /\ (ErrorHandler.handle_streaming_error shouted w).2
       = Ok (nl +:+ nl +:+ "**Error**: CONTEXT_LENGTH_EXCEEDED" +:+ nl +:+ nl +:+
             "Please try again or rephrase your question.")
    /\ ErrorHandler.get_user_friendly_message shouted = ErrorHandler.MSG_CONTEXT.
Proof.
  intros marked shouted. subst marked.
  unfold ErrorHandler.handle_streaming_error, bind, log, emit, add_events. cbn.
  destruct (contains "context_length_exceeded" (str e)
            || contains "maximum context length" (str e)) eqn:Hc; cbn.
  - eexists. split; [reflexivity|]. split; [split; reflexivity|].
    split; [|split; [discriminate|split; reflexivity]].
    intros _. unfold ErrorHandler.get_user_friendly_message.
    apply orb_true_iff in Hc as [Hc|Hc]; apply contains_lower in Hc.
    + change (lower "context_length_exceeded") with "context_length_exceeded" in Hc.
      rewrite Hc. reflexivity.
    + change (lower "maximum context length") with "maximum context length" in Hc.
      rewrite Hc, orb_true_r. reflexivity.
  - eexists. split; [reflexivity|]. split; [|split; [discriminate|split]].
    + split; [|discriminate]. unfold ErrorHandler.MSG_STREAM_CONTEXT, nl. cbn.
      discriminate.
    + intros _. split; [reflexivity|].
      change (nl +:+ nl +:+ "**Error**: " +:+ str e +:+ nl +:+ nl +:+
              "Please try again or rephrase your question.")
        with ((nl +:+ nl +:+ "**Error**: ") +:+ str e +:+ nl +:+ nl +:+
              "Please try again or rephrase your question.").
      apply contains_append.
    + split; reflexivity.
Qed.

Lemma validate_input_blank s :
  s <> EmptyString -> whitespace_only s = true ->
  ErrorHandler.validate_input (Some s) = (false, "Input cannot be empty").
Proof.
  intros Hne Hw. unfold ErrorHandler.validate_input.
  destruct s as [|c s]; [congruence|].
  apply strip_empty_iff in Hw. rewrite Hw. reflexivity.
Qed.

Lemma validate_input_long s :
  whitespace_only s = false -> len s > 10000 ->
  ErrorHandler.validate_input (Some s)
  = (false, "Input is too long (maximum 10,000 characters)").
Proof.
  intros Hw Hlen. unfold ErrorHandler.validate_input.
  destruct s as [|c s]; [discriminate|].
  destruct (Z.eqb_spec (len (strip (String c s))) 0) as [Hz|Hnz].
  - apply len_zero, strip_empty_iff in Hz. congruence.
  - destruct (Z.gtb_spec (len (String c s)) 10000); [reflexivity|lia].
Qed.

Lemma validate_input_flag i :
  (ErrorHandler.validate_input i).1 = true
  <-> (ErrorHandler.validate_input i).2 = EmptyString.
Proof.
  unfold ErrorHandler.validate_input.
  destruct i as [[|c s]|]; cbn [fst snd]; try (split; discriminate).
  destruct (len (strip (String c s)) =? 0); [split; discriminate|].
  destruct (len (String c s) >? 10000); [split; discriminate|]. split; reflexivity.
Qed.

(** Property X10.  [validate_input] returns the empty message exactly when
    it accepts; a missing or empty input gives 'No input provided', a
    non-empty blank one 'Input cannot be empty', and a non-blank one of
    more than 10,000 characters 'Input is too long (maximum 10,000
    characters)'. *)
Theorem validate_input_message (user_input : option string) :
  let r := ErrorHandler.validate_input user_input in
  (r.1 = true <-> r.2 = EmptyString)
  /\ (user_input = None \/ user_input = Some EmptyString ->
        r = (false, "No input provided"))
  /\ (forall s, user_input = Some s -> s <> EmptyString ->
        whitespace_only s = true -> r = (false, "Input cannot be empty"))
  /\ (forall s, user_input = Some s -> whitespace_only s = false ->
        len s > 10000 ->
        r = (false, "Input is too long (maximum 10,000 characters)"))
  /\ (forall s, user_input = Some s -> whitespace_only s = false ->
        len s <= 10000 -> r = (true, EmptyString)).
Proof.
  cbn zeta. split; [apply validate_input_flag|].
  split; [intros [->| ->]; reflexivity|].
  split; [intros s' -> Hne Hw; apply validate_input_blank; assumption|].
  split; [intros s' -> Hw Hlen; apply validate_input_long; assumption|].
  intros s' -> Hw Hlen. apply validate_input_accepts. auto.
Qed.


(** When every [connect()] raises: the result, the pool and the trace of
    [connect_all]. *)
Lemma connect_all_no_providers_run cfg env w :
  1 <= MCP_CONNECTION_RETRIES cfg ->
  (forall t, connect_outcome env t <> None) ->
  (connect_all cfg env w).2 = Raise NoProvidersAvailable
  /\ pool (connect_all cfg env w).1 = pool w
  /\ exists tr, extends w (connect_all cfg env w).1 tr /\ agents_of tr = [].
Proof.
  intros HN Hfail.
  destruct (connect_all cfg env w) as [w' r] eqn:Hrun.
  apply connect_all_post in Hrun as (a & tr & Hsum & Hres);
    [|apply retries_decorator_defined, HN].
  destruct Hsum as [Htr Huu Hnh Hat Hbd Hsl Hcl Hag].
  destruct r as [u|e|]; cbn in *.
  - destruct Hres as (t & (_ & _ & Hok & _) & _). destruct (Hfail t Hok).
  - destruct Hres as (-> & Hp & _). split; [reflexivity|]. split; [exact Hp|].
    exists tr. auto.
  - destruct Hres.
Qed.

(** Property X11.  A request with an accepted input on a connected pool:
    when the agent can be constructed, the response has status 200 and
    streams the run, exactly one agent was made, for the identity of the
    request and with the whole pool as its tools, exactly one run was
    started, on the input, and no connection was attempted; when the
    constructor raises, the response has status 500 with the friendly
    message of the error, and no agent or run exists. *)
Theorem accepted_request_runs_once cfg env req w :
  pool w <> [] ->
  (ErrorHandler.validate_input (arg_input req)).1 = true ->
  let sid := resolved_session_id env req w in
  let input := default EmptyString (arg_input req) in
  (agent_outcome env sid (pool w) = None ->
     exists tr,
       extends w (streaming_chat cfg env req w).1 tr
       /\ (streaming_chat cfg env req w).2
          = Ok {| status := 200; body := Stream (arun env sid input);
                  response_X_Session_ID := Some sid |}
       /\ agents_of tr = [(sid, pool w)]
       /\ runs_of tr = [(sid, input)]
       /\ attempts_of tr = []
       /\ pool (streaming_chat cfg env req w).1 = pool w)
  /\ (forall e, agent_outcome env sid (pool w) = Some e ->
        is_ValidationError e = false ->
        exists tr,
          extends w (streaming_chat cfg env req w).1 tr
          /\ (streaming_chat cfg env req w).2
             = Ok {| status := 500;
                     body := Text (ErrorHandler.get_user_friendly_message e);
                     response_X_Session_ID := Some sid |}
          /\ agents_of tr = [] /\ runs_of tr = []).
Proof.
  intros Hp Hv sid input.
  destruct (resolve_session_id_run env req w) as (w1 & Heq & Hp1 & Hh1 & Htruthy & Hw1).
  assert (Hext1 : exists tr1, trace w1 = trace w ++ tr1 /\ attempts_of tr1 = []
            /\ agents_of tr1 = [] /\ runs_of tr1 = []).
  { destruct (header_X_Session_ID req) as [[|c s]|].
    - destruct Hw1 as [_ ->]. eexists. repeat split.
    - subst w1. exists []. rewrite app_nil_r. repeat split.
    - destruct Hw1 as [_ ->]. eexists. repeat split. }
  destruct Hext1 as (tr1 & Ht1 & Ha1 & Hg1 & Hr1).
  assert (Hp1' : pool w1 <> []) by congruence.
  assert (Hrun : streaming_chat cfg env req w =
            match streaming_chat_try cfg env sid req w1 with
            | (w2, Raise e) => streaming_chat_except (Some sid) e w2
            | other => other
            end).
  { rewrite streaming_chat_unfold, Heq. reflexivity. }
  rewrite (streaming_chat_try_connected cfg env sid req w1 Hp1' Hv) in Hrun.
  rewrite Hp1 in Hrun. fold input in Hrun.
  split.
  - intros Hnone. rewrite Hnone in Hrun. rewrite Hrun. unfold add_events. cbn.
    eexists (tr1 ++ [_; _; _; _; _]). unfold extends. cbn.
    rewrite Ht1, <- !app_assoc. split; [reflexivity|]. split; [reflexivity|].
    unfold agents_of, runs_of, attempts_of in *.
    rewrite !omap_app, Ha1, Hg1, Hr1. cbn. rewrite Hp1. repeat split.
  - intros e Hsome Hcls. rewrite Hsome in Hrun. rewrite Hrun.
    rewrite (streaming_chat_except_run _ _ _ Htruthy), Hcls.
    unfold add_events, emit. cbn.
    eexists (tr1 ++ [_; _; _]). unfold extends. cbn.
    rewrite Ht1, <- !app_assoc. split; [reflexivity|]. split; [reflexivity|].
    unfold agents_of, runs_of in *. rewrite !omap_app, Hg1, Hr1. cbn.
    split; reflexivity.
Qed.

Lemma accepted_request_runs_once_witness :
  pool connected_world <> []
  /\ (ErrorHandler.validate_input (arg_input hello_request)).1 = true
  /\ (streaming_chat (default_config (Some "demo")) env_hello hello_request
        connected_world).2
     = Ok {| status := 200; body := Stream hello_run;
             response_X_Session_ID := Some "abc-123" |}.
Proof.
  assert (Hp : pool connected_world <> []) by discriminate.
  assert (Hv : (ErrorHandler.validate_input (arg_input hello_request)).1 = true)
    by reflexivity.
  split; [exact Hp|]. split; [exact Hv|].
  pose proof (accepted_request_runs_once (default_config (Some "demo")) env_hello
                hello_request connected_world Hp Hv) as P.
  cbv zeta in P. destruct P as [P _].
  destruct (P eq_refl) as (tr & _ & Hr & _). exact Hr.
Defined.

(** Property X12.  A request with an accepted input while the pool is
    empty and every [connect()] raises: the response has status 500, the
    fallback message naming 'Failed to connect to any MCP servers' and the
    identity of the request in its header; the pool stays empty and no
    agent is constructed. *)
Theorem unreachable_provider_response cfg env req w :
  1 <= MCP_CONNECTION_RETRIES cfg ->
  pool w = [] ->
  (forall t, connect_outcome env t <> None) ->
  (ErrorHandler.validate_input (arg_input req)).1 = true ->
  (streaming_chat cfg env req w).2
  = Ok {| status := 500;
          body := Text (ErrorHandler.MSG_DEFAULT
                          "Failed to connect to any MCP servers");
          response_X_Session_ID := Some (resolved_session_id env req w) |}
  /\ pool (streaming_chat cfg env req w).1 = []
  /\ exists tr, extends w (streaming_chat cfg env req w).1 tr
                /\ agents_of tr = [].
Proof.
  intros HN Hp Hfail Hv.
  set (sid := resolved_session_id env req w).
  destruct (resolve_session_id_run env req w) as (w1 & Heq & Hp1 & Hh1 & Htruthy & Hw1).
  assert (Hext1 : exists tr1, trace w1 = trace w ++ tr1 /\ agents_of tr1 = []).
  { destruct (header_X_Session_ID req) as [[|c s]|].
    - destruct Hw1 as [_ ->]. eexists. repeat split.
    - subst w1. exists []. rewrite app_nil_r. repeat split.
    - destruct Hw1 as [_ ->]. eexists. repeat split. }
  destruct Hext1 as (tr1 & Ht1 & Hg1).
  destruct (streaming_chat cfg env req w) as [wf rf] eqn:Hrun.
  rewrite streaming_chat_unfold, Heq in Hrun. cbn [fst] in Hrun. fold sid in Hrun.
  unfold streaming_chat_try in Hrun.
  destruct (ErrorHandler.validate_input (arg_input req)) as [is_valid verr].
  cbn in Hv. subst is_valid. cbn [negb] in Hrun.
  unfold bind at 1 in Hrun. cbn [log emit] in Hrun. unfold bind at 1 in Hrun.
  rewrite ensure_connected_empty in Hrun by (cbn; congruence).
  match type of Hrun with context [connect_all cfg env ?x] => set (wl := x) in Hrun end.
  destruct (connect_all_no_providers_run cfg env wl HN Hfail)
    as (Hr & Hpool & tr2 & Hext2 & Hg2).
  destruct (connect_all cfg env wl) as [w3 r3]. cbn in Hr, Hpool, Hext2. subst r3.
  rewrite (streaming_chat_except_run _ _ _ Htruthy) in Hrun.
  change (is_ValidationError NoProvidersAvailable) with false in Hrun.
  injection Hrun as <- <-. cbn.
  split; [reflexivity|]. split; [rewrite Hpool; subst wl; cbn; congruence|].
  exists (tr1 ++ [ELog INFO (MProcessing (take 8 sid)
                     (take 50 (default EmptyString (arg_input req)))) None;
                  ELog WARNING MReconnecting None] ++ tr2 ++
          [ELog ERROR (MErrorIn "streaming_chat" (str NoProvidersAvailable))
             (Some (exn_traceback NoProvidersAvailable))]).
  unfold extends in *. rewrite Hext2. subst wl. cbn. rewrite Ht1.
  split; [rewrite <- !app_assoc; reflexivity|].
  unfold agents_of in *. rewrite omap_app, Hg1. cbn.
  rewrite omap_app, Hg2. reflexivity.
Qed.

Lemma unreachable_provider_response_witness :
  1 <= MCP_CONNECTION_RETRIES (default_config (Some "demo"))
  /\ pool initial_world = []
  /\ (streaming_chat (default_config (Some "demo")) env_refusing hello_request
        initial_world).2
     = Ok {| status := 500;
             body := Text (ErrorHandler.MSG_DEFAULT
                             "Failed to connect to any MCP servers");
             response_X_Session_ID := Some "abc-123" |}.
Proof.
  assert (HN : 1 <= MCP_CONNECTION_RETRIES (default_config (Some "demo")))
    by (cbn; lia).
  assert (Hp : pool initial_world = []) by reflexivity.
  assert (Hf : forall t, connect_outcome env_refusing t <> None)
    by (intros t; discriminate).
  assert (Hv : (ErrorHandler.validate_input (arg_input hello_request)).1 = true)
    by reflexivity.
  split; [exact HN|]. split; [exact Hp|].
  exact (proj1 (unreachable_provider_response (default_config (Some "demo"))
                  env_refusing hello_request initial_world HN Hp Hf Hv)).
Defined.

Module UsageMoreFacts.
Import Usage UsageMore.

Lemma endpoints_total_insert_fresh (e : gmap string Z) k v :
  e !! k = None -> endpoints_total (<[k := v]> e) = v + endpoints_total e.
Proof.
  intros Hk. unfold endpoints_total.
  rewrite map_fold_insert_L; [reflexivity| |exact Hk].
  intros. lia.
Qed.

Lemma endpoints_total_bump (e : gmap string Z) k :
  endpoints_total (<[k := default 0 (e !! k) + 1]> e) = endpoints_total e + 1.
Proof.
  destruct (e !! k) as [v|] eqn:Hk; cbn.
  - rewrite <- (insert_delete_eq e).
    rewrite endpoints_total_insert_fresh by apply lookup_delete_eq.
    rewrite <- (insert_delete_id e k v Hk) at 2.
    rewrite endpoints_total_insert_fresh by apply lookup_delete_eq. lia.
  - rewrite endpoints_total_insert_fresh by exact Hk. lia.
Qed.

Lemma consistent_empty : consistent ∅.
Proof. intros day u H. rewrite lookup_empty in H. discriminate. Qed.

Lemma record_api_call_consistent clk endpoint t :
  consistent (_usage_data t) ->
  consistent (_usage_data (record_api_call clk endpoint t).1).
Proof.
  intros Hc day u. rewrite UsageFacts.record_api_call_data.
  destruct (decide (day = today_key clk)) as [->|Hne].
  - rewrite lookup_insert_eq. intros H. injection H as <-.
    unfold bump. cbn. rewrite endpoints_total_bump.
    destruct (_usage_data t !! today_key clk) as [u0|] eqn:Hd; cbn.
    + rewrite (Hc _ _ Hd). reflexivity.
    + reflexivity.
  - rewrite lookup_insert_ne by congruence. apply Hc.
Qed.

Lemma record_all_consistent calls : forall t,
  consistent (_usage_data t) -> consistent (_usage_data (record_all calls t)).
Proof.
  induction calls as [|[clk endpoint] calls IH]; intros t H; cbn; [exact H|].
  apply IH, record_api_call_consistent, H.
Qed.
End UsageMoreFacts.

(** ** The usage tracker *)

(** Property X13.  In a tracker that started empty, after any sequence of
    recorded calls, the count of every day is the sum of the per-endpoint
    counts of that day. *)
Theorem usage_count_is_sum_of_endpoints calls today :
  let t := UsageMore.record_all calls
             {| Usage._usage_data := ∅; Usage.storage := None |} in
  Usage.u_count (Usage.get_today_usage today t)
  = UsageMore.endpoints_total (Usage.u_endpoints (Usage.get_today_usage today t)).
Proof.
  intros t.
  assert (Hc : UsageMore.consistent (Usage._usage_data t))
    by (apply UsageMoreFacts.record_all_consistent, UsageMoreFacts.consistent_empty).
  unfold Usage.get_today_usage.
  destruct (Usage._usage_data t !! today) as [u|] eqn:Hd; cbn.
  - apply (Hc _ _ Hd).
  - reflexivity.
Qed.

Module UsageCounting.
Import Usage UsageMore.

Lemma count_of_record clk endpoint t today :
  count_of today (_usage_data (record_api_call clk endpoint t).1)
  = count_of today (_usage_data t)
    + (if String.eqb (today_key clk) today then 1 else 0).
Proof.
  rewrite UsageFacts.record_api_call_data. unfold count_of.
  destruct (String.eqb_spec (today_key clk) today) as [->|Hne].
  - rewrite lookup_insert_eq. destruct (_usage_data t !! today); reflexivity.
  - rewrite lookup_insert_ne by congruence.
    destruct (_usage_data t !! today); lia.
Qed.

Lemma endpoint_count_of_record clk endpoint t today other :
  endpoint_count_of today other (_usage_data (record_api_call clk endpoint t).1)
  = endpoint_count_of today other (_usage_data t)
    + (if String.eqb (today_key clk) today && String.eqb endpoint other
       then 1 else 0).
Proof.
  rewrite UsageFacts.record_api_call_data. unfold endpoint_count_of.
  destruct (String.eqb_spec (today_key clk) today) as [->|Hne]; cbn [andb].
  - rewrite lookup_insert_eq. cbn.
    destruct (String.eqb_spec endpoint other) as [->|Hne].
    + rewrite lookup_insert_eq.
      destruct (_usage_data t !! today); cbn; [reflexivity|].
      rewrite lookup_empty. reflexivity.
    + rewrite lookup_insert_ne by congruence.
      destruct (_usage_data t !! today); cbn; [rewrite Z.add_0_r; reflexivity|].
      rewrite lookup_empty. reflexivity.
  - rewrite lookup_insert_ne by congruence.
    destruct (_usage_data t !! today); lia.
Qed.

Lemma count_of_record_all today calls : forall t,
  count_of today (_usage_data (record_all calls t))
  = count_of today (_usage_data t) + Z.of_nat (length (calls_on today calls)).
Proof.
  unfold calls_on.
  induction calls as [|[clk endpoint] calls IH]; intros t; cbn; [lia|].
  rewrite IH, count_of_record.
  destruct (String.eqb (today_key clk) today); cbn [length]; lia.
Qed.

Lemma endpoint_count_of_record_all today other calls : forall t,
  endpoint_count_of today other (_usage_data (record_all calls t))
  = endpoint_count_of today other (_usage_data t)
    + Z.of_nat (length (calls_to other (calls_on today calls))).
Proof.
  unfold calls_to, calls_on.
  induction calls as [|[clk endpoint] calls IH]; intros t; cbn; [lia|].
  rewrite IH, endpoint_count_of_record.
  destruct (String.eqb (today_key clk) today); cbn; [|lia].
  destruct (String.eqb endpoint other); cbn [length]; lia.
Qed.
End UsageCounting.

(** Property X14.  After a sequence of recorded calls the count of a day
    has grown by the number of calls made on that day, and the count of an
    endpoint by the number of those made to it; the remaining quota is
    [max(0, 25 - count)], and [can_make_request] holds exactly while the
    count is below 25. *)
Theorem usage_counts_calls_of_the_day calls today endpoint (t : Usage.Tracker) :
  let t' := UsageMore.record_all calls t in
  let n := Z.of_nat (length (UsageMore.calls_on today calls)) in
  Usage.count_of today (Usage._usage_data t')
  = Usage.count_of today (Usage._usage_data t) + n
  /\ Usage.endpoint_count_of today endpoint (Usage._usage_data t')
     = Usage.endpoint_count_of today endpoint (Usage._usage_data t)
       + Z.of_nat (length (UsageMore.calls_to endpoint
                             (UsageMore.calls_on today calls)))
  /\ Usage.u_remaining (Usage.get_today_usage today t')
     = Z.max 0 (25 - (Usage.count_of today (Usage._usage_data t) + n))
  /\ (Usage.can_make_request today t' = true
      <-> Usage.count_of today (Usage._usage_data t) + n < 25).
Proof.
  intros t' n.
  pose proof (UsageCounting.count_of_record_all today calls t) as Hc.
  fold t' n in Hc.
  split; [exact Hc|].
  split; [apply UsageCounting.endpoint_count_of_record_all|].
  assert (Hrem : Usage.u_remaining (Usage.get_today_usage today t')
                 = Z.max 0 (25 - Usage.count_of today (Usage._usage_data t'))).
  { unfold Usage.get_today_usage, Usage.count_of.
    destruct (Usage._usage_data t' !! today); reflexivity. }
  split; [rewrite Hrem, Hc; reflexivity|].
  unfold Usage.can_make_request. rewrite Hrem, Hc.
  destruct (Z.gtb_spec (Z.max 0 (25 - (Usage.count_of today (Usage._usage_data t) + n))) 0);
    split; intros; try lia; try discriminate; reflexivity.
Qed.

(** Property X15.  One [record_api_call] logs the failure to save, if the
    write fails, and then at most one record for the new count of the day:
    the reached limit from 25, the approaching limit from 20, the usage
    from 15, nothing below; the count grows by one whether or not the data
    could be saved. *)
Theorem record_api_call_logs clk endpoint (t : Usage.Tracker) :
  let count := Usage.count_of (Usage.today_key clk) (Usage._usage_data t) + 1 in
  (Usage.record_api_call clk endpoint t).2
  = (if Usage.write_ok clk then [] else [Usage.SaveFailed])
    ++ UsageMore.threshold_logs count
  /\ Usage.count_of (Usage.today_key clk)
       (Usage._usage_data (Usage.record_api_call clk endpoint t).1) = count.
Proof.
  intros count.
  pose proof (UsageCounting.count_of_record clk endpoint t (Usage.today_key clk)) as Hc.
  rewrite String.eqb_refl in Hc. fold count in Hc. split; [|exact Hc].
  revert Hc. unfold Usage.record_api_call, Usage._save_usage, UsageMore.threshold_logs.
  destruct (Usage.write_ok clk); cbn [fst snd Usage._usage_data];
    intros ->; reflexivity.
Qed.

(** Property X17.  A tracker constructed over a missing file, or over one
    that cannot be read or parsed, starts empty: no call counted, requests
    allowed; the warning is logged for the unreadable file only. *)
Theorem usage_starts_empty_without_file f day :
  f = UsageMore.FileMissing \/ f = UsageMore.FileUnreadable ->
  Usage._usage_data (UsageMore.new_tracker f) = ∅
  /\ Usage.u_count (Usage.get_today_usage day (UsageMore.new_tracker f)) = 0
  /\ Usage.can_make_request day (UsageMore.new_tracker f) = true
  /\ ((UsageMore._load_usage f).2 = true <-> f = UsageMore.FileUnreadable).
Proof.
  intros [-> | ->]; cbn; repeat split; try discriminate; try reflexivity.
Qed.

Lemma usage_starts_empty_without_file_witness :
  (UsageMore.FileUnreadable = UsageMore.FileMissing
   \/ UsageMore.FileUnreadable = UsageMore.FileUnreadable)
  /\ Usage.can_make_request "2025-01-15"
       (UsageMore.new_tracker UsageMore.FileUnreadable) = true.
Proof.
  assert (H : UsageMore.FileUnreadable = UsageMore.FileMissing
              \/ UsageMore.FileUnreadable = UsageMore.FileUnreadable)
    by (right; reflexivity).
  split; [exact H|].
  destruct (usage_starts_empty_without_file UsageMore.FileUnreadable "2025-01-15" H)
    as (_ & _ & Hc & _).
  exact Hc.
Defined.

(** ** The smaller demos *)

(** Property X18.  [streaming_chat] of the plain Agent Chat always returns
    a response with status 200 and the identity of the request in its
    header, also when the agent cannot be constructed or the run cannot be
    started: the body is then the apology with the text of the error, else
    the stream of the run. *)
Theorem simple_streaming_chat_always_200 env agent_run req w :
  let sid := resolved_session_id env req w in
  exists resp,
    (AgentChatApp.streaming_chat env agent_run req w).2 = Ok resp
    /\ status resp = 200
    /\ response_X_Session_ID resp = Some sid
    /\ match agent_outcome env sid [] with
       | Some e => body resp = Text (AgentChatApp.SORRY (str e))
       | None =>
           match agent_run sid (arg_input req) with
           | inl output => body resp = Stream output
           | inr e => body resp = Text (AgentChatApp.SORRY (str e))
           end
       end.
Proof.
  intros sid. unfold AgentChatApp.streaming_chat, bind at 1.
  destruct (resolve_session_id_run env req w) as (w1 & Heq & _).
  rewrite Heq. fold sid. unfold try_except, bind.
  destruct (agent_outcome env sid []) as [e|]; cbn;
    [|destruct (agent_run sid (arg_input req)) as [output|e]; cbn];
    eexists; repeat split.
Qed.

Section MCPDemo.
Variable env : Env.

(** Property X19.  The hooks of the demo with one MCP server: [startup]
    makes exactly one connection attempt; when it succeeds the global holds
    the connected object and [shutdown] calls [close()] on it once, an
    error of [close()] being raised to the caller; when it fails the global
    stays unset and [shutdown] does nothing. *)
Theorem mcp_demo_lifecycle w :
  let t := new_MCPTools AgentChatMCP.MCP_URL (next_handle w) in
  let w1 := (AgentChatMCP.startup env w).1 in
  trace w1 = trace w ++ [EConnect t (connect_outcome env t)]
  /\ match (AgentChatMCP.startup env w).2 with
     | Ok g =>
         g = Some t /\ connect_outcome env t = None
         /\ AgentChatMCP.shutdown env g w1
            = (add_events w1 [EClose t (close_outcome env t)],
               match close_outcome env t with
               | Some e => Raise e
               | None => Ok tt
               end)
     | Raise e =>
         connect_outcome env t = Some e
         /\ AgentChatMCP.shutdown env None w1 = (w1, Ok tt)
     | OutOfFuel => False
     end.
Proof.
  intros t w1. subst w1.
  unfold AgentChatMCP.startup, AgentChatMCP.open_mcp_connection,
    AgentChatMCP.shutdown, AgentChatMCP.close_mcp_connection, bind. cbn.
  fold t. destruct (connect_outcome env t) as [e|]; cbn.
  - repeat split.
  - repeat split. destruct (close_outcome env t); reflexivity.
Qed.
End MCPDemo.

Section DuckTools.
Variable listdir : string -> list string + exn.
Variable convert : string -> string + exn.

Lemma convert_files_spec directory files :
  map fst (AgenticDuck.convert_files convert directory files).1
  = List.filter (AgenticDuck.converts convert directory) files
  /\ (length (AgenticDuck.convert_files convert directory files).1
      + length (AgenticDuck.convert_files convert directory files).2
      = length files)%nat
  /\ Forall (fun entry =>
               convert (OsPath.join directory [entry.1]) = inl entry.2)
       (AgenticDuck.convert_files convert directory files).1.
Proof.
  induction files as [|f files (IH1 & IH2 & IH3)]; [repeat split; constructor|].
  cbn [AgenticDuck.convert_files List.filter]. unfold AgenticDuck.converts at 1.
  destruct (AgenticDuck.convert_files convert directory files) as [entries printed].
  destruct (convert (OsPath.join directory [f])) as [text|e] eqn:Hc; cbn in *.
  - repeat split; [f_equal; exact IH1|lia|]. constructor; [exact Hc|exact IH3].
  - repeat split; [exact IH1|lia|exact IH3].
Qed.

(** Property X20.  [get_job_candidates] and [get_job_descriptions] return
    one entry for each file of their directory that converts, in the order
    of the listing, with the name of the file and the text of the
    conversion; every other file is skipped with one printed line; an
    error of the listing itself is not caught. *)
Theorem job_tools_skip_unconvertible_files :
  match listdir "candidates" with
  | inl files =>
      exists candidates printed,
        AgenticDuck.get_job_candidates listdir convert = (inl candidates, printed)
        /\ map fst candidates
           = List.filter (AgenticDuck.converts convert "candidates") files
        /\ (length candidates + length printed = length files)%nat
        /\ Forall (fun entry =>
                     convert (OsPath.join "candidates" [entry.1]) = inl entry.2)
             candidates
  | inr e => AgenticDuck.get_job_candidates listdir convert = (inr e, [])
  end
  /\ match listdir "jobs" with
     | inl files =>
         exists jobs printed,
           AgenticDuck.get_job_descriptions listdir convert = (inl jobs, printed)
           /\ map fst jobs
              = List.filter (AgenticDuck.converts convert "jobs") files
           /\ (length jobs + length printed = length files)%nat
           /\ Forall (fun entry =>
                        convert (OsPath.join "jobs" [entry.1]) = inl entry.2)
                jobs
     | inr e => AgenticDuck.get_job_descriptions listdir convert = (inr e, [])
     end.
Proof.
  unfold AgenticDuck.get_job_candidates, AgenticDuck.get_job_descriptions.
  split.
  - destruct (listdir "candidates") as [files|e]; [|reflexivity].
    pose proof (convert_files_spec "candidates" files) as (H1 & H2 & H3).
    destruct (AgenticDuck.convert_files convert "candidates" files) as [c p].
    exists c, p. auto.
  - destruct (listdir "jobs") as [files|e]; [|reflexivity].
    pose proof (convert_files_spec "jobs" files) as (H1 & H2 & H3).
    destruct (AgenticDuck.convert_files convert "jobs" files) as [c p].
    exists c, p. auto.
Qed.
End DuckTools.

Section LisaImage.
Variable root_dir : string.
Variable b64encode : string -> string.
Variable can_read can_remove : string -> bool.

Lemma get_image_cases name fs :
  let image_path := OsPath.join root_dir ["static"; name] in
  (exists image_bytes,
     fs !! image_path = Some image_bytes
     /\ AskLisa.get_image root_dir b64encode can_read can_remove (Some name) fs
        = (delete image_path fs,
           "data:image/png;base64," +:+ b64encode image_bytes))
  \/ AskLisa.get_image root_dir b64encode can_read can_remove (Some name) fs
     = (fs, EmptyString).
Proof.
  intros image_path. unfold AskLisa.get_image. fold image_path.
  destruct (fs !! image_path) as [image_bytes|]; [|right; reflexivity].
  destruct (can_read image_path); [|right; reflexivity].
  destruct (can_remove image_path); [|right; reflexivity].
  left. exists image_bytes. split; reflexivity.
Qed.

(** Property X21.  [get_image] serves an image once: a non-empty body is
    the data URL of the bytes of the file, the file is removed, and the
    same request again gives the empty body; an empty body leaves the
    files as they were, as does a request without a file name; no other
    file is ever touched. *)
Theorem get_image_serves_once name fs :
  let get_image := AskLisa.get_image root_dir b64encode can_read can_remove in
  let image_path := OsPath.join root_dir ["static"; name] in
  let fs' := (get_image (Some name) fs).1 in
  get_image None fs = (fs, EmptyString)
  /\ ((get_image (Some name) fs).2 <> EmptyString ->
      exists image_bytes,
        fs !! image_path = Some image_bytes
        /\ (get_image (Some name) fs).2
           = "data:image/png;base64," +:+ b64encode image_bytes
        /\ fs' = delete image_path fs
        /\ get_image (Some name) fs' = (fs', EmptyString))
  /\ ((get_image (Some name) fs).2 = EmptyString -> fs' = fs)
  /\ (forall path, path <> image_path -> fs' !! path = fs !! path).
Proof.
  intros get_image image_path fs'. subst fs' get_image. split; [reflexivity|].
  destruct (get_image_cases name fs) as [(image_bytes & Hf & Heq)|Heq];
    rewrite Heq; cbn [fst snd].
  - fold image_path in Hf |- *. split; [|split].
    + intros _. exists image_bytes. repeat split; [exact Hf|].
      destruct (get_image_cases name (delete image_path fs))
        as [(b' & Hf' & _)|Heq']; [|exact Heq'].
      fold image_path in Hf'. rewrite lookup_delete_eq in Hf'. discriminate.
    + intros H. discriminate H.
    + intros path Hne. apply lookup_delete_ne. congruence.
  - split; [intros H; contradiction|]. split; reflexivity.
Qed.

(** Property X22.  The image path is not confined to the directory
    'static': for a file name that starts with '/', [os.path.join] gives
    the name itself, and [get_image] serves and removes that file. *)
Theorem get_image_absolute_name_escapes name fs image_bytes :
  String.prefix "/" name = true ->
  fs !! name = Some image_bytes ->
  can_read name = true -> can_remove name = true ->
  OsPath.join root_dir ["static"; name] = name
  /\ AskLisa.get_image root_dir b64encode can_read can_remove (Some name) fs
     = (delete name fs, "data:image/png;base64," +:+ b64encode image_bytes).
Proof.
  intros Habs Hf Hr Hd.
  assert (Hj : OsPath.join root_dir ["static"; name] = name).
  { unfold OsPath.join. cbn [fold_left]. unfold OsPath.join_step at 1.
    rewrite Habs. reflexivity. }
  split; [exact Hj|]. unfold AskLisa.get_image. rewrite Hj, Hf, Hr, Hd. reflexivity.
Qed.
End LisaImage.

Lemma get_image_absolute_name_escapes_witness :
  let fs : gmap string string := {[ "/etc/hostname" := "lisa" ]} in
  String.prefix "/" "/etc/hostname" = true
  /\ fs !! "/etc/hostname" = Some "lisa"
  /\ AskLisa.get_image "/srv/app" (fun b => b) (fun _ => true) (fun _ => true)
       (Some "/etc/hostname") fs
     = (delete "/etc/hostname" fs, "data:image/png;base64," +:+ "lisa").
Proof.
  intros fs.
  assert (H1 : String.prefix "/" "/etc/hostname" = true) by reflexivity.
  assert (H2 : fs !! "/etc/hostname" = Some "lisa") by (vm_compute; reflexivity).
  split; [exact H1|]. split; [exact H2|].
  exact (proj2 (get_image_absolute_name_escapes "/srv/app" (fun b => b)
                  (fun _ => true) (fun _ => true) "/etc/hostname" fs "lisa"
                  H1 H2 eq_refl eq_refl)).
Defined.

Module Text2SqlFacts.
Import Text2Sql.

Lemma sub_fences_plain s : forall ls,
  no_backtick s = true -> sub_fences 0 ls s = s.
Proof.
  induction s as [|c r IH]; intros ls H; [reflexivity|].
  cbn in H. apply andb_true_iff in H as [Hc Hr].
  apply negb_true_iff in Hc.
  cbn [sub_fences].
  assert (Ho : match_open ls (String c r) = None).
  { unfold match_open. destruct ls; [|reflexivity].
    destruct r as [|c2 [|c3 r']]; try reflexivity. rewrite Hc. reflexivity. }
  assert (Hcl : match_close (String c r) = None).
  { unfold match_close. destruct r as [|c1 [|c2 [|c3 r']]]; try reflexivity.
    cbn in Hr. apply andb_true_iff in Hr as [Hc1 _].
    apply negb_true_iff in Hc1. rewrite Hc1, andb_false_r. reflexivity. }
  rewrite Ho, Hcl. f_equal. apply IH, Hr.
Qed.

(** The text before the closing fence. *)
Lemma sub_fences_body body : forall ls,
  no_backtick body = true ->
  sub_fences 0 ls (body +:+ NL +:+ FENCE) = body.
Proof.
  induction body as [|c r IH]; intros ls H.
  - cbn. destruct ls; reflexivity.
  - cbn in H. apply andb_true_iff in H as [Hc Hr].
    apply negb_true_iff in Hc.
    change (String c r +:+ NL +:+ FENCE) with (String c (r +:+ NL +:+ FENCE)).
    cbn [sub_fences].
    assert (Ho : match_open ls (String c (r +:+ NL +:+ FENCE)) = None).
    { unfold match_open. destruct ls; [|reflexivity].
      destruct (r +:+ NL +:+ FENCE) as [|c2 [|c3 r']]; try reflexivity.
      rewrite Hc. reflexivity. }
    assert (Hcl : match_close (String c (r +:+ NL +:+ FENCE)) = None).
    { unfold match_close. destruct r as [|c1 r1].
      - cbn. destruct (Ascii.eqb c newline); reflexivity.
      - change (String c1 r1 +:+ NL +:+ FENCE) with (String c1 (r1 +:+ NL +:+ FENCE)).
        cbn in Hr. apply andb_true_iff in Hr as [Hc1 _].
        apply negb_true_iff in Hc1.
        destruct (r1 +:+ NL +:+ FENCE) as [|c2 [|c3 r']]; try reflexivity.
        rewrite Hc1, andb_false_r. reflexivity. }
    rewrite Ho, Hcl. f_equal. apply IH, Hr.
Qed.

(** Dropping the rest of a match that ends with the newline. *)
Lemma sub_fences_skip pre : forall ls rest,
  sub_fences (S (String.length pre)) ls (pre +:+ NL +:+ rest)
  = sub_fences 0 true rest.
Proof.
  induction pre as [|c pre IH]; intros ls rest; [reflexivity|].
  change (String c pre +:+ NL +:+ rest) with (String c (pre +:+ NL +:+ rest)).
  cbn [String.length sub_fences]. apply IH.
Qed.

Lemma match_word_run_newline_lang lang rest :
  all_word lang = true ->
  match_word_run_newline (lang +:+ NL +:+ rest) = Some (S (String.length lang)).
Proof.
  induction lang as [|c lang IH]; intros H.
  - reflexivity.
  - cbn in H. apply andb_true_iff in H as [Hc Hl].
    change (String c lang +:+ NL +:+ rest) with (String c (lang +:+ NL +:+ rest)).
    cbn [match_word_run_newline].
    destruct (Ascii.eqb_spec c newline) as [->|Hne]; [discriminate Hc|].
    rewrite Hc, (IH Hl). reflexivity.
Qed.
End Text2SqlFacts.

(** Property X23.  [text2sql] returns a response without backticks as it
    is, and unwraps one that is fenced: an opening line of three backticks
    and an optional language of word characters, the text, and a closing
    line of three backticks give the text. *)
Theorem text2sql_unwraps_fences (lang body : string) :
  Text2Sql.no_backtick body = true ->
  Text2Sql.text2sql body = body
  /\ (Text2Sql.all_word lang = true ->
      Text2Sql.text2sql (Text2Sql.FENCE +:+ lang +:+ Text2Sql.NL +:+ body
                         +:+ Text2Sql.NL +:+ Text2Sql.FENCE)
      = body).
Proof.
  intros Hb. split; [apply Text2SqlFacts.sub_fences_plain, Hb|].
  intros Hl. unfold Text2Sql.text2sql.
  set (rest := body +:+ Text2Sql.NL +:+ Text2Sql.FENCE).
  change (Text2Sql.FENCE +:+ lang +:+ Text2Sql.NL +:+ rest)
    with (String Text2Sql.backtick (String Text2Sql.backtick
            (String Text2Sql.backtick (lang +:+ Text2Sql.NL +:+ rest)))).
  cbn [Text2Sql.sub_fences Text2Sql.match_open].
  change (Ascii.eqb Text2Sql.backtick Text2Sql.backtick) with true. cbn [andb].
  rewrite (Text2SqlFacts.match_word_run_newline_lang lang rest Hl).
  cbn [option_map]. 
  change (Ascii.eqb Text2Sql.backtick Text2Sql.newline) with false.
  replace (3 + S (String.length lang) - 1)%nat
    with (S (S (S (String.length lang)))) by lia.
  cbn [Text2Sql.sub_fences].
  rewrite Text2SqlFacts.sub_fences_skip.
  apply Text2SqlFacts.sub_fences_body, Hb.
Qed.

Lemma text2sql_unwraps_fences_witness :
  Text2Sql.no_backtick "SELECT 1" = true
  /\ Text2Sql.text2sql (Text2Sql.FENCE +:+ "sql" +:+ Text2Sql.NL +:+ "SELECT 1"
                        +:+ Text2Sql.NL +:+ Text2Sql.FENCE)
     = "SELECT 1".
Proof.
  assert (H : Text2Sql.no_backtick "SELECT 1" = true) by reflexivity.
  split; [exact H|].
  exact (proj2 (text2sql_unwraps_fences "sql" "SELECT 1" H) eq_refl).
Defined.
